(** * Steganography encoder: the container format and the orchestration of
      [encode], [decode] and [main] (src/main.cpp), as a shallow embedding.

    Integers are [Z] with the wrap-around of their C++ type written out;
    bytes are [Z] in [0, 256); byte buffers are lists; the collaborators of
    main.cpp (the image, the file system, the randomness source) are records
    of functions, and what a run does to them is an explicit trace. *)

From Stdlib Require Import String Ascii ZArith List Bool Lia.
Import ListNotations.
Open Scope Z_scope.

(** ** Machine integers *)

Module Width.
Definition u8 (x : Z) : Z := x mod 2 ^ 8.
Definition u16 (x : Z) : Z := x mod 2 ^ 16.
Definition u32 (x : Z) : Z := x mod 2 ^ 32.
(** [std::size_t] on the LP64 targets the program is built for. *)
Definition usize (x : Z) : Z := x mod 2 ^ 64.

(** Little-endian bytes of an unsigned value, [n] of them. *)
Fixpoint le_bytes (n : nat) (x : Z) : list Z :=
  match n with
  | O => []
  | S n' => (x mod 256) :: le_bytes n' (x / 256)
  end.

(** The unsigned value of little-endian bytes. *)
Fixpoint le_value (bs : list Z) : Z :=
  match bs with
  | [] => 0
  | b :: bs' => b + 256 * le_value bs'
  end.
End Width.

(** ** Encoding levels *)

(** [Image::EncodingLevel]; the enumerators index [level_to_str] in that order. *)
Inductive EncodingLevel : Type := Low | Medium | High.

(** [static_cast<int>(level)] / [static_cast<std::uint8_t>(level)]. *)
Definition level_code (l : EncodingLevel) : Z :=
  match l with Low => 0 | Medium => 1 | High => 2 end.

(** [static_cast<Image::EncodingLevel>(b)] for a byte naming an enumerator. *)
Definition level_of_code (b : Z) : option EncodingLevel :=
  if b =? 0 then Some Low
  else if b =? 1 then Some Medium
  else if b =? 2 then Some High
  else None.

(** [const char* level_to_str[3]]: reading it past index 2 is out of bounds. *)
Definition level_to_str (i : Z) : option string :=
  if i =? 0 then Some "Low (Default)"%string
  else if i =? 1 then Some "Medium"%string
  else if i =? 2 then Some "High"%string
  else None.

(** [#define VERSION 1] and [#define LEVEL Image::EncodingLevel::Low]. *)
Definition VERSION : Z := 1.
Definition LEVEL : EncodingLevel := Low.

(** ** The header record *)

(** [struct Header]. *)
Record Header : Type := mkHeader {
  sig : list Z;        (* std::uint8_t  sig[4]       *)
  version : Z;         (* std::uint16_t version      *)
  level : Z;           (* std::uint8_t  level        *)
  flags : Z;           (* std::uint8_t  flags        *)
  offset : Z;          (* std::uint32_t offset       *)
  size : Z;            (* std::uint32_t size         *)
  name : list Z;       (* std::uint8_t  name[32]     *)
  reserved : list Z    (* std::uint8_t  reserved[12] *)
}.

Module Layout.
(** A member of a struct: the width of one element and how many there are. *)
Record member : Type := mkMember { m_name : string; m_width : Z; m_count : Z }.

(** The members of [struct Header], in declaration order. *)
Definition Header_members : list member :=
  [ mkMember "sig" 1 4;
    mkMember "version" 2 1;
    mkMember "level" 1 1;
    mkMember "flags" 1 1;
    mkMember "offset" 4 1;
    mkMember "size" 4 1;
    mkMember "name" 1 32;
    mkMember "reserved" 1 12 ].

Definition round_up (x a : Z) : Z := (x + a - 1) / a * a.

(** Each fixed-width integer is aligned to its own width; a member starts at
    the next multiple of its alignment. Returns the members' offsets and the
    first free byte. *)
Fixpoint place (ms : list member) (at_ : Z) : list (string * Z * Z) * Z :=
  match ms with
  | [] => ([], at_)
  | m :: ms' =>
      let start := round_up at_ (m_width m) in
      let bytes := m_width m * m_count m in
      let '(rest, fin) := place ms' (start + bytes) in
      ((m_name m, start, bytes) :: rest, fin)
  end.

Definition alignment (ms : list member) : Z :=
  fold_right (fun m a => Z.max (m_width m) a) 1 ms.

(** [sizeof]: the end of the last member rounded up to the struct's alignment. *)
Definition sizeof (ms : list member) : Z :=
  round_up (snd (place ms 0)) (alignment ms).

Definition offsets (ms : list member) : list (string * Z * Z) := fst (place ms 0).
End Layout.

(** [sizeof(Header)]. *)
Definition sizeof_Header : Z := Eval cbv in Layout.sizeof Layout.Header_members.

(** [sizeof(header.name)] and [sizeof(header.reserved)]. *)
Definition sizeof_name : Z := 32.
Definition sizeof_reserved : Z := 12.

(** [reinterpret_cast<const uint8_t*>(&header)]: the object representation,
    members in declaration order, multi-byte members little-endian. *)
Definition header_bytes (h : Header) : list Z :=
  firstn 4 (sig h ++ repeat 0 4)
  ++ Width.le_bytes 2 (version h)
  ++ Width.le_bytes 1 (level h)
  ++ Width.le_bytes 1 (flags h)
  ++ Width.le_bytes 4 (offset h)
  ++ Width.le_bytes 4 (size h)
  ++ firstn 32 (name h ++ repeat 0 32)
  ++ firstn 12 (reserved h ++ repeat 0 12).

(** Bytes [from, from + count) of a buffer; a byte past the end reads as 0. *)
Definition slice (from count : nat) (bs : list Z) : list Z :=
  firstn count (skipn from bs ++ repeat 0 count).

(** [std::memcpy(&header, header_data.get(), sizeof(Header))]. *)
Definition header_of_bytes (bs : list Z) : Header :=
  {| sig := slice 0 4 bs;
     version := Width.le_value (slice 4 2 bs);
     level := Width.le_value (slice 6 1 bs);
     flags := Width.le_value (slice 7 1 bs);
     offset := Width.le_value (slice 8 4 bs);
     size := Width.le_value (slice 12 4 bs);
     name := slice 16 32 bs;
     reserved := slice 48 12 bs |}.

(** What decode requires of a header: the signature 'H' 'I' 'D' 'E', the
    supported version, a zeroed reserved block. *)
Definition well_formed (header : Header) : Prop :=
  sig header = [72; 73; 68; 69] /\
  version header = VERSION /\
  Forall (fun r => r = 0) (reserved header).

(** ** The image collaborator (image.hpp) *)

Module Image.
(** What main.cpp reads from an [Image]: its dimensions, and the bytes
    [decode(size, level, offset)] returns ([None]: the offset argument is
    left to its default). *)
Record t : Type := mk {
  w : Z;
  h : Z;
  decode : Z -> EncodingLevel -> option Z -> list Z
}.

Section Capacity.
(** Bits of one channel-slot a level overwrites: a parameter of the format. *)
Variable bits_per_slot : EncodingLevel -> Z.

(** Modelled from the spec: [Image::encoded_size] is declared in image.hpp,
    which is not among the sources; the channel-slots needed for
    [byte_count] bytes are [ceil(byte_count * 8 / bits_per_slot(level))]. *)
Definition encoded_size (byte_count : Z) (level : EncodingLevel) : Z :=
  (byte_count * 8 + bits_per_slot level - 1) / bits_per_slot level.
End Capacity.

(** Modelled from the spec: the recognised densities, Low 1 bit per slot,
    Medium 2, High 4. *)
Definition spec_bits_per_slot (level : EncodingLevel) : Z :=
  match level with Low => 1 | Medium => 2 | High => 4 end.

Definition spec_encoded_size : Z -> EncodingLevel -> Z :=
  encoded_size spec_bits_per_slot.
End Image.

(** ** What a run prints and does *)

Inductive Message : Type :=
| ErrOpenFile (input : string)
| InfoImageSize (w h : Z)
| InfoEncodingLevel (text : option string)
| InfoMaxEmbedSize (max_size : Z)
| InfoEmbedSize (size : Z)
| ErrTooBig (kib : Z)
| ErrRandom
| ErrNameTooLong (name : string)
| InfoEmbedded (name : string)
| ErrSaveImage
| InfoWrote (output : string)
| ErrSignature
| ErrVersion (version : Z)
| ErrReserved
| InfoDetected (name : list Z)
| ErrSaveFile (output : string)
| Usage
| UsageEncode
| UsageDecode
| ErrLoadImage (input_img : string)
| ErrUnknownMode (mode : string).

Inductive Event : Type :=
| Cout (m : Message)
| Cerr (m : Message)
| ImageEncode (data : list Z) (size : Z) (level : EncodingLevel) (offset : option Z)
| ImageDecode (size : Z) (level : EncodingLevel) (offset : option Z)
| ImageSave (output : string)
| FileWrite (output : string) (data : list Z).

(** How a call ends: it returns an [int], or it runs into undefined behaviour
    (a modulo by zero, a read outside a buffer). *)
Inductive Outcome : Type :=
| Returned (code : Z)
| Undefined.

Definition Run : Type := (list Event * Outcome)%type.

(** The rest of the environment: the file system, the randomness source
    (random.hpp), and the image codec behind [load] and [save]. *)
Record World : Type := mkWorld {
  read_file : string -> option (list Z);
  random_get : option Z;
  image_save : string -> bool;
  open_out : string -> bool;
  image_load : string -> option Image.t
}.

(** [fs::path(input).filename().string()]: what follows the last separator. *)
Fixpoint filename (path : string) : string :=
  match path with
  | EmptyString => EmptyString
  | String c rest =>
      if Ascii.eqb c "/"%char then filename rest
      else if existsb (Ascii.eqb "/"%char) (list_ascii_of_string rest)
           then filename rest
           else path
  end.

Definition string_bytes (s : string) : list Z :=
  map (fun c => Z.of_nat (nat_of_ascii c)) (list_ascii_of_string s).

Definition len {A : Type} (l : list A) : Z := Z.of_nat (List.length l).

(** ** encode: padding and capacity (main.cpp, lines 43 to 64) *)

(** Lines 44 to 46, in [std::size_t]. *)
Definition padded_size_of (size : Z) : Z :=
  let padded_size := Width.usize (size + 1) in
  if negb (padded_size mod 16 =? 0)
  then Width.usize ((size / 16 + 1) * 16)
  else padded_size.

(** Lines 58 to 64: a zeroed buffer of [padded_size] bytes, the file read into
    its first [size] bytes, then [left] bytes of value [left]. *)
Definition padded_data_of (content : list Z) (padded_size : Z) : list Z :=
  let size := len content in
  let left := Width.u8 (padded_size - size) in
  content ++ repeat left (Z.to_nat left)
          ++ repeat 0 (Z.to_nat (padded_size - size - left)).

(** ** decode: trimming (main.cpp, lines 141 to 153) *)

(** [data[header.size - 1]], the index computed in 32 bits. *)
Definition last_byte (data : list Z) (hsize : Z) : option Z :=
  nth_error data (Z.to_nat (Width.u32 (hsize - 1))).

(** [header.size - left], computed in 32 bits. *)
Definition trimmed_size (hsize left : Z) : Z := Width.u32 (hsize - left).

(** The bytes [file.write(data.get(), size)] takes from the buffer; reading
    past its end has no defined result. *)
Definition written_bytes (data : list Z) (size : Z) : option (list Z) :=
  if size <=? len data then Some (firstn (Z.to_nat size) data) else None.

(** Lines 141, 142 and 153 together: the payload without its padding. *)
Definition strip_padding (data : list Z) (hsize : Z) : option (list Z) :=
  match last_byte data hsize with
  | None => None
  | Some b => written_bytes data (trimmed_size hsize b)
  end.

(** ** The program *)

Section Program.
(** [Image::encoded_size], declared in image.hpp, which is not among the
    sources: the program is read for any such function. *)
Variable encoded_size : Z -> EncodingLevel -> Z.

(** Line 48. The operand types come from image.hpp; the product is taken
    exactly (an image small enough for [w * h * 4] not to overflow) and the
    result is converted to [unsigned int]. *)
Definition max_size_of (image : Image.t) (level : EncodingLevel) : Z :=
  Width.u32 (Image.w image * Image.h image * 4 / encoded_size 1 level
             - encoded_size sizeof_Header Low).

(** The divisor of line 73. *)
Definition offset_modulus (max_size padded_size : Z) (level : EncodingLevel) : Z :=
  encoded_size (Width.usize (max_size - padded_size)) level.

(** Line 73, for a non-zero divisor: the sum in [std::size_t], the
    remainder stored in a [std::uint32_t]. *)
Definition choose_offset (random : Z) (max_size padded_size : Z)
    (level : EncodingLevel) : Z :=
  Width.u32 (Width.usize (Width.u32 random + encoded_size sizeof_Header Low)
             mod offset_modulus max_size padded_size level).

(** Lines 75 to 90. *)
Definition build_header (level : EncodingLevel) (offset padded_size : Z)
    (name : string) : Header :=
  {| sig := [72; 73; 68; 69];
     version := VERSION;
     level := Width.u8 (level_code level);
     flags := 0;
     offset := offset;
     size := Width.u32 padded_size;
     name := string_bytes name
             ++ repeat 0 (Z.to_nat (sizeof_name - len (string_bytes name)));
     reserved := repeat 0 (Z.to_nat sizeof_reserved) |}.

(** [int encode(Image&, const std::string&, const std::string&, EncodingLevel)]. *)
Definition encode (world : World) (image : Image.t) (input output : string)
    (level : EncodingLevel) : Run :=
  match read_file world input with
  | None => ([Cerr (ErrOpenFile input)], Returned (-1))
  | Some content =>
    let t1 := [Cout (InfoImageSize (Image.w image) (Image.h image));
               Cout (InfoEncodingLevel (level_to_str (level_code level)))] in
    let size := Width.usize (len content) in
    let padded_size := padded_size_of size in
    let max_size := max_size_of image level in
    let t2 := t1 ++ [Cout (InfoMaxEmbedSize max_size); Cout (InfoEmbedSize size)] in
    if padded_size >? max_size then
      (t2 ++ [Cerr (ErrTooBig (max_size / 1024))], Returned (-1))
    else
      let padded_data := padded_data_of content padded_size in
      match random_get world with
      | None => (t2 ++ [Cerr ErrRandom], Returned (-1))
      | Some random =>
        if offset_modulus max_size padded_size level =? 0 then (t2, Undefined)
        else
          let offset := choose_offset random max_size padded_size level in
          let name := filename input in
          if len (string_bytes name) >? sizeof_name then
            (t2 ++ [Cerr (ErrNameTooLong name)], Returned (-1))
          else
            let header := build_header level offset padded_size name in
            let t3 := t2 ++ [ImageEncode (header_bytes header) sizeof_Header level None;
                             ImageEncode padded_data padded_size level (Some offset);
                             Cout (InfoEmbedded name); ImageSave output] in
            if negb (image_save world output) then
              (t3 ++ [Cout ErrSaveImage], Returned (Z.b2z false))
            else
              (t3 ++ [Cout (InfoWrote output)], Returned (Z.b2z true))
      end
  end.

(** Lines 113 to 128: the three checks of the header, in order. *)
Definition check_header (header : Header) : option Message :=
  if negb (nth 0 (sig header) 0 =? 72) || negb (nth 1 (sig header) 0 =? 73)
     || negb (nth 2 (sig header) 0 =? 68) || negb (nth 3 (sig header) 0 =? 69)
  then Some ErrSignature
  else if negb (version header =? VERSION) then Some (ErrVersion (version header))
  else if existsb (fun r => negb (r =? 0)) (reserved header) then Some ErrReserved
  else None.

(** Lines 130 to 134: the whole field when its last byte is set, otherwise
    the bytes before the first zero. *)
Fixpoint c_string (bs : list Z) : list Z :=
  match bs with
  | [] => []
  | b :: bs' => if b =? 0 then [] else b :: c_string bs'
  end.

Definition header_name (header : Header) : list Z :=
  if negb (nth (Z.to_nat (sizeof_name - 1)) (name header) 0 =? 0)
  then firstn (Z.to_nat sizeof_name) (name header)
  else c_string (name header).

Definition bytes_string (bs : list Z) : string :=
  string_of_list_ascii (map (fun b => ascii_of_nat (Z.to_nat b)) bs).

(** [int decode(Image&, std::string)]. *)
Definition decode (world : World) (image : Image.t) (output : string) : Run :=
  let t1 := [Cout (InfoImageSize (Image.w image) (Image.h image));
             ImageDecode sizeof_Header Low None] in
  let header_data := Image.decode image sizeof_Header Low None in
  let header := header_of_bytes header_data in
  match check_header header with
  | Some err => (t1 ++ [Cerr err], Returned (-1))
  | None =>
    let name := header_name header in
    let t2 := t1 ++ [Cout (InfoDetected name)] in
    match level_to_str (level header), level_of_code (level header) with
    | Some text, Some lvl =>
      let t3 := t2 ++ [Cout (InfoEncodingLevel (Some text));
                       ImageDecode (size header) lvl (Some (offset header))] in
      let data := Image.decode image (size header) lvl (Some (offset header)) in
      match last_byte data (size header) with
      | None => (t3, Undefined)
      | Some b =>
        let left := b in
        let size := trimmed_size (size header) left in
        let output := if String.eqb output EmptyString then bytes_string name
                      else output in
        if negb (open_out world output) then
          (t3 ++ [Cerr (ErrSaveFile output)], Returned (-1))
        else
          match written_bytes data size with
          | None => (t3, Undefined)
          | Some written =>
            (t3 ++ [FileWrite output written; Cout (InfoWrote output)], Returned 0)
          end
      end
    | _, _ => (t2, Undefined)
    end
  end.

(** The option loops of [main]: a flag takes the next argument as its value
    when there is one ([i + 1 < argc]); anything else is skipped. *)
Definition is_flag (short long arg : string) : bool :=
  String.eqb arg short || String.eqb arg long.

Fixpoint encode_args (args : list string) (acc : string * string * string)
    : string * string * string :=
  match args with
  | [] => acc
  | arg :: rest =>
      let '(input_img, embed_file, output_img) := acc in
      match rest with
      | [] => acc
      | value :: rest' =>
          if is_flag "-i" "--input" arg then
            encode_args rest' (value, embed_file, output_img)
          else if is_flag "-e" "--embed" arg then
            encode_args rest' (input_img, value, output_img)
          else if is_flag "-o" "--output" arg then
            encode_args rest' (input_img, embed_file, value)
          else encode_args rest acc
      end
  end.

Fixpoint decode_args (args : list string) (acc : string * string)
    : string * string :=
  match args with
  | [] => acc
  | arg :: rest =>
      let '(input_img, output_file) := acc in
      match rest with
      | [] => acc
      | value :: rest' =>
          if is_flag "-i" "--input" arg then decode_args rest' (value, output_file)
          else if is_flag "-o" "--output" arg then decode_args rest' (input_img, value)
          else decode_args rest acc
      end
  end.

Definition empty (s : string) : bool := String.eqb s EmptyString.

(** [int main(int argc, char** argv)]; [argv] includes the program's name. *)
Definition main (world : World) (argv : list string) : Run :=
  match argv with
  | [] | [_] => ([Cerr Usage], Returned (-1))
  | _ :: mode :: args =>
    if String.eqb mode "encode" then
      let '(input_img, embed_file, output_img) :=
        encode_args args (EmptyString, EmptyString, EmptyString) in
      if empty input_img || empty embed_file || empty output_img then
        ([Cerr UsageEncode], Returned (-1))
      else
        match image_load world input_img with
        | None => ([Cerr (ErrLoadImage input_img)], Returned (-1))
        | Some image => encode world image embed_file output_img LEVEL
        end
    else if String.eqb mode "decode" then
      let '(input_img, output_file) :=
        decode_args args (EmptyString, EmptyString) in
      if empty input_img || empty output_file then
        ([Cerr UsageDecode], Returned (-1))
      else
        match image_load world input_img with
        | None => ([Cerr (ErrLoadImage input_img)], Returned (-1))
        | Some image => decode world image output_file
        end
    else ([Cerr (ErrUnknownMode mode)], Returned (-1))
  end.
End Program.

(** The status the process exits with: the low eight bits of what [main]
    returns. *)
Definition exit_status (code : Z) : Z := code mod 256.

(** ** Predicates on headers, events and images *)

(** A header whose members hold values of their declared widths: arrays of
    their declared lengths, integers within their unsigned ranges. *)
Definition representable (hd : Header) : Prop :=
  List.length (sig hd) = 4%nat /\
  0 <= version hd < 2 ^ 16 /\
  0 <= level hd < 2 ^ 8 /\
  0 <= flags hd < 2 ^ 8 /\
  0 <= offset hd < 2 ^ 32 /\
  0 <= size hd < 2 ^ 32 /\
  List.length (name hd) = 32%nat /\
  List.length (reserved hd) = 12%nat.

(** The events that change the image or write it out. *)
Definition touches_image (e : Event) : bool :=
  match e with
  | ImageEncode _ _ _ _ | ImageSave _ => true
  | _ => false
  end.

(** An event that, if it embeds anything, embeds it at [lvl]. *)
Definition embeds_at (lvl : EncodingLevel) (e : Event) : Prop :=
  match e with
  | ImageEncode _ _ l _ => l = lvl
  | _ => True
  end.

(** An event that, if it writes a file, writes one with a non-empty name. *)
Definition writes_named (e : Event) : Prop :=
  match e with
  | FileWrite out _ => empty out = false
  | _ => True
  end.

(** An image that gives back, to a [decode] of the same size, level and
    offset, the bytes each [encode] call of the trace stored in it. *)
Definition holds (image : Image.t) (trace : list Event) : Prop :=
  forall data size level offset,
    In (ImageEncode data size level offset) trace ->
    Image.decode image size level offset = data.

(** ** Concrete inputs *)

Module Sample.
(** An image of the given dimensions that carries nothing. *)
Definition blank (w h : Z) : Image.t := Image.mk w h (fun _ _ _ => []).

(** An image whose header region reads as [header_data] and whose payload
    region reads as [data]. *)
Definition carrying (header_data data : list Z) : Image.t :=
  Image.mk 64 64 (fun _ _ offset =>
                    match offset with None => header_data | Some _ => data end).

(** A file system in which every file to embed reads as [content], every
    image loads as [image], and every output file can be opened. *)
Definition world (content : list Z) (random : option Z) (save : bool)
    (image : Image.t) : World :=
  {| read_file := fun _ => Some content;
     random_get := random;
     image_save := fun _ => save;
     open_out := fun _ => true;
     image_load := fun _ => Some image |}.

(** The ten bytes of the file to hide. *)
Definition hello : list Z := [104; 101; 108; 108; 111; 57; 57; 57; 57; 10].

(** A header as encode writes it, for a 16-byte payload at slot 485. *)
Definition good_header : list Z :=
  [72; 73; 68; 69; 1; 0; 0; 0; 229; 1; 0; 0; 16; 0; 0; 0; 102; 46; 98; 105; 110]
  ++ repeat 0 27 ++ repeat 0 12.

(** The same header with the first signature byte changed. *)
Definition bad_header : list Z := 0 :: tl good_header.

(** A 16-byte payload whose last byte, the pad length, is 0. *)
Definition zero_pad : list Z := [1; 2; 3; 4; 5; 6; 7; 8; 9; 10; 11; 12; 13; 14; 15; 0].

(** A 16-byte payload with 13 bytes of padding. *)
Definition padded_abc : list Z := [97; 98; 99] ++ repeat 13 13.

Definition encode_argv : list string :=
  ["steganography"; "encode"; "-i"; "in.png"; "-e"; "f.bin"; "-o"; "out.png"]%string.
End Sample.

(** * Properties *)

(** ** Machine arithmetic *)

Module WidthFacts.
Lemma u8_small x : 0 <= x < 256 -> Width.u8 x = x.
Proof. intros Hx; unfold Width.u8; apply Z.mod_small; lia. Qed.

Lemma u32_small x : 0 <= x < 2 ^ 32 -> Width.u32 x = x.
Proof. intros Hx; unfold Width.u32; now apply Z.mod_small. Qed.

Lemma usize_small x : 0 <= x < 2 ^ 64 -> Width.usize x = x.
Proof. intros Hx; unfold Width.usize; now apply Z.mod_small. Qed.

Lemma u32_range x : 0 <= Width.u32 x < 2 ^ 32.
Proof. unfold Width.u32; apply Z.mod_pos_bound; lia. Qed.

Lemma le_bytes_length n x : List.length (Width.le_bytes n x) = n.
Proof.
  revert x; induction n as [|n IH]; intros x; simpl; [reflexivity|].
  now rewrite IH.
Qed.
End WidthFacts.

Lemma len_nonneg {A : Type} (l : list A) : 0 <= len l.
Proof. unfold len; lia. Qed.

Lemma len_app {A : Type} (l l' : list A) : len (l ++ l') = len l + len l'.
Proof. unfold len; rewrite length_app; lia. Qed.

Lemma len_repeat {A : Type} (a : A) (k : Z) : 0 <= k -> len (repeat a (Z.to_nat k)) = k.
Proof. intros Hk; unfold len; rewrite repeat_length; lia. Qed.

(** A field copied into a fixed array: exactly [n] bytes. *)
Lemma fixed_field_length (n : nat) (bs : list Z) :
  List.length (firstn n (bs ++ repeat 0 n)) = n.
Proof.
  rewrite length_firstn, length_app, repeat_length; lia.
Qed.

(** ** The header's layout *)

Lemma header_bytes_length (hd : Header) : len (header_bytes hd) = sizeof_Header.
Proof.
  unfold header_bytes, len.
  repeat rewrite length_app.
  repeat rewrite fixed_field_length.
  repeat rewrite WidthFacts.le_bytes_length.
  reflexivity.
Qed.

(** C8, as stated, fails: the members of [struct Header] occupy 60 bytes, not
    56, and so does every header handed to the image. *)
Lemma header_is_not_56_bytes :
  sizeof_Header <> 56 /\
  ~ (forall hd : Header, len (header_bytes hd) = 56).
Proof.
  split; [discriminate|].
  intros Hall.
  specialize (Hall (mkHeader [] 0 0 0 0 0 [] [])).
  rewrite header_bytes_length in Hall; discriminate.
Qed.

(** C8, amended: the header is a fixed 60-byte record: a 4-byte magic at byte
    0, a 2-byte version at 4, a 1-byte level at 6, 1-byte flags at 7, a 4-byte
    payload offset at 8, a 4-byte padded payload size at 12, a 32-byte name
    at 16 and a 12-byte reserved block at 48, with no padding between or
    after them; every serialized header has exactly that many bytes. *)
Theorem header_is_60_bytes :
  sizeof_Header = 60 /\
  Layout.sizeof Layout.Header_members = sizeof_Header /\
  Layout.offsets Layout.Header_members =
    [ ("sig", 0, 4); ("version", 4, 2); ("level", 6, 1); ("flags", 7, 1);
      ("offset", 8, 4); ("size", 12, 4); ("name", 16, 32);
      ("reserved", 48, 12) ]%string /\
  (forall hd : Header, len (header_bytes hd) = 60).
Proof.
  repeat split; try reflexivity.
  intros hd; apply header_bytes_length.
Qed.

(** ** Padding *)

Lemma padded_size_of_spec (n : Z) :
  0 <= n < 2 ^ 63 ->
  padded_size_of n mod 16 = 0 /\ n + 1 <= padded_size_of n <= n + 16.
Proof.
  intros Hn; unfold padded_size_of.
  rewrite (WidthFacts.usize_small (n + 1)) by lia.
  assert (Hq : n + 1 <= (n / 16 + 1) * 16 <= n + 16)
    by (Z.to_euclidean_division_equations; lia).
  rewrite (WidthFacts.usize_small ((n / 16 + 1) * 16)) by lia.
  destruct (Z.eqb_spec ((n + 1) mod 16) 0) as [E | E]; cbn [negb].
  - split; [exact E | lia].
  - split; [apply Z_mod_mult | lia].
Qed.

Lemma padded_data_of_eq (raw : list Z) (p : Z) :
  1 <= p - len raw <= 16 ->
  padded_data_of raw p = raw ++ repeat (p - len raw) (Z.to_nat (p - len raw)).
Proof.
  intros Hp; unfold padded_data_of.
  rewrite WidthFacts.u8_small by lia.
  replace (p - len raw - (p - len raw)) with 0 by lia.
  cbn [Z.to_nat repeat]; now rewrite app_nil_r.
Qed.

Lemma last_of_padding (raw : list Z) (a : Z) (k : nat) :
  (0 < k)%nat ->
  nth_error (raw ++ repeat a k) (List.length raw + k - 1) = Some a.
Proof.
  intros Hk.
  rewrite nth_error_app2 by lia.
  apply nth_error_repeat; lia.
Qed.

(** Padding, then trimming, as functions of the bytes: the padded length is a
    multiple of 16 above the length, the pad bytes all hold the pad length,
    and trimming gives the bytes back. *)
Lemma padded_then_stripped (raw : list Z) :
  len raw < 2 ^ 63 ->
  padded_size_of (len raw) < 2 ^ 32 ->
  let n := len raw in
  let padded_size := padded_size_of n in
  let padded := padded_data_of raw padded_size in
  padded_size mod 16 = 0 /\
  n + 1 <= padded_size /\
  1 <= padded_size - n <= 16 /\
  len padded = padded_size /\
  padded = raw ++ repeat (padded_size - n) (Z.to_nat (padded_size - n)) /\
  last_byte padded (Width.u32 padded_size) = Some (padded_size - n) /\
  strip_padding padded (Width.u32 padded_size) = Some raw.
Proof.
  intros Hn H32; cbv zeta.
  pose proof (len_nonneg raw) as H0.
  destruct (padded_size_of_spec (len raw)) as [Hmod Hrange]; [lia|].
  set (p := padded_size_of (len raw)) in *.
  assert (Hdata : padded_data_of raw p
                  = raw ++ repeat (p - len raw) (Z.to_nat (p - len raw)))
    by (apply padded_data_of_eq; lia).
  assert (Hlen : len (padded_data_of raw p) = p)
    by (rewrite Hdata, len_app, len_repeat; lia).
  assert (Hlast : last_byte (padded_data_of raw p) (Width.u32 p)
                  = Some (p - len raw)).
  { unfold last_byte.
    rewrite (WidthFacts.u32_small p) by lia.
    rewrite (WidthFacts.u32_small (p - 1)) by lia.
    rewrite Hdata.
    replace (Z.to_nat (p - 1))
      with (List.length raw + Z.to_nat (p - len raw) - 1)%nat
      by (unfold len in *; lia).
    apply last_of_padding; lia. }
  repeat split; try lia; try assumption.
  unfold strip_padding; rewrite Hlast.
  unfold trimmed_size, written_bytes.
  rewrite (WidthFacts.u32_small p) by lia.
  replace (p - (p - len raw)) with (len raw) by lia.
  rewrite (WidthFacts.u32_small (len raw)) by lia.
  rewrite Hlen.
  destruct (Z.leb_spec (len raw) p) as [_ | Hbad]; [|lia].
  rewrite Hdata; unfold len; rewrite Nat2Z.id.
  rewrite firstn_app, firstn_all, Nat.sub_diag; cbn [firstn].
  now rewrite app_nil_r.
Qed.

(** ** The slot count of the format *)

Section EncodedSizeFacts.
Variable bits_per_slot : EncodingLevel -> Z.
Hypothesis bits_per_slot_range : forall level, 1 <= bits_per_slot level <= 8.

Lemma encoded_size_zero level : Image.encoded_size bits_per_slot 0 level = 0.
Proof.
  unfold Image.encoded_size.
  pose proof (bits_per_slot_range level).
  apply Z.div_small; lia.
Qed.

Lemma encoded_size_bounds n level :
  1 <= n -> n <= Image.encoded_size bits_per_slot n level <= n * 8.
Proof.
  intros Hn; unfold Image.encoded_size.
  pose proof (bits_per_slot_range level) as Hb.
  split.
  - apply Z.div_le_lower_bound; nia.
  - apply Z.div_le_upper_bound; nia.
Qed.

Lemma header_slots_bounds :
  60 <= Image.encoded_size bits_per_slot sizeof_Header Low <= 480.
Proof.
  pose proof (encoded_size_bounds sizeof_Header Low) as Hs.
  unfold sizeof_Header in *; lia.
Qed.
End EncodedSizeFacts.

Lemma spec_bits_per_slot_range (level : EncodingLevel) :
  1 <= Image.spec_bits_per_slot level <= 8.
Proof. destruct level; cbn; lia. Qed.

(** ** encode: capacity and offset selection *)

Section EncodeFacts.
Variable encoded_size : Z -> EncodingLevel -> Z.

(** C5 fails on the code: for an image with fewer channel-slots than the
    header takes at the Low level, the subtraction of line 48 wraps around
    in [unsigned int]; the computed maximum is 2^32 less the shortfall,
    never 0. *)
Theorem max_size_wraps_around (image : Image.t) (level : EncodingLevel) :
  1 <= encoded_size 1 level ->
  encoded_size sizeof_Header Low < 2 ^ 32 ->
  0 <= Image.w image * Image.h image * 4 < encoded_size sizeof_Header Low ->
  max_size_of encoded_size image level
    = 2 ^ 32 - (encoded_size sizeof_Header Low
                - Image.w image * Image.h image * 4 / encoded_size 1 level)
  /\ 0 < max_size_of encoded_size image level < 2 ^ 32.
Proof.
  intros H1 Hh Hsmall.
  set (slots := Image.w image * Image.h image * 4) in *.
  assert (Hq : 0 <= slots / encoded_size 1 level <= slots).
  { split; [apply Z.div_pos; lia|].
    apply Z.div_le_upper_bound; nia. }
  assert (Heq : max_size_of encoded_size image level
                = 2 ^ 32 - (encoded_size sizeof_Header Low
                            - slots / encoded_size 1 level)).
  { unfold max_size_of, Width.u32; fold slots.
    symmetry; apply Z.mod_unique_pos with (q := -1); lia. }
  rewrite Heq; lia.
Qed.

(** C6: when the padded size exceeds the computed maximum, encode prints the
    maximum (in full on the standard output, in whole KiB in the error
    message), returns -1, and has neither touched the image nor saved
    anything: nothing of the payload is embedded. *)
Theorem capacity_exceeded (world : World) (image : Image.t)
    (input output : string) (level : EncodingLevel) (content : list Z) :
  read_file world input = Some content ->
  padded_size_of (Width.usize (len content)) > max_size_of encoded_size image level ->
  encode encoded_size world image input output level =
    ([ Cout (InfoImageSize (Image.w image) (Image.h image));
       Cout (InfoEncodingLevel (level_to_str (level_code level)));
       Cout (InfoMaxEmbedSize (max_size_of encoded_size image level));
       Cout (InfoEmbedSize (Width.usize (len content)));
       Cerr (ErrTooBig (max_size_of encoded_size image level / 1024)) ],
     Returned (-1)).
Proof.
  intros Hread Hbig; unfold encode; rewrite Hread; cbv zeta.
  assert (Hgt : (padded_size_of (Width.usize (len content))
                 >? max_size_of encoded_size image level) = true)
    by (rewrite Z.gtb_ltb; apply Z.ltb_lt; lia).
  rewrite Hgt; reflexivity.
Qed.

(** C10 fails on the code: a padded size equal to the computed maximum
    passes the check of line 53 (which rejects only a larger one), and the
    divisor of line 73 is then [encoded_size(0, level)]; no slot is needed
    for no byte, so the divisor is 0 and encode runs into a modulo by zero. *)
Theorem modulus_zero_at_full_capacity (world : World) (image : Image.t)
    (input output : string) (level : EncodingLevel) (content : list Z)
    (random : Z) :
  encoded_size 0 level = 0 ->
  read_file world input = Some content ->
  random_get world = Some random ->
  padded_size_of (Width.usize (len content)) = max_size_of encoded_size image level ->
  (padded_size_of (Width.usize (len content))
     >? max_size_of encoded_size image level) = false /\
  offset_modulus encoded_size (max_size_of encoded_size image level)
    (padded_size_of (Width.usize (len content))) level = 0 /\
  snd (encode encoded_size world image input output level) = Undefined.
Proof.
  intros Hnone Hread Hrandom Hfull.
  assert (Hle : (padded_size_of (Width.usize (len content))
                 >? max_size_of encoded_size image level) = false)
    by (rewrite Z.gtb_ltb; apply Z.ltb_ge; lia).
  assert (Hzero : offset_modulus encoded_size
                    (max_size_of encoded_size image level)
                    (padded_size_of (Width.usize (len content))) level = 0).
  { unfold offset_modulus; rewrite Hfull, Z.sub_diag.
    change (Width.usize 0) with 0; exact Hnone. }
  repeat split; try assumption.
  unfold encode; rewrite Hread; cbv zeta.
  rewrite Hle, Hrandom, Hzero; reflexivity.
Qed.

(** Whatever is drawn, the offset of line 73 is a remainder: it lies in
    [0, modulus), a window that starts at slot 0. *)
Lemma choose_offset_below_modulus (random max_size padded_size : Z)
    (level : EncodingLevel) :
  0 < offset_modulus encoded_size max_size padded_size level ->
  0 <= choose_offset encoded_size random max_size padded_size level
    < Z.min (offset_modulus encoded_size max_size padded_size level) (2 ^ 32).
Proof.
  intros Hm; unfold choose_offset.
  set (m := offset_modulus encoded_size max_size padded_size level) in *.
  set (x := Width.usize _).
  pose proof (Z.mod_pos_bound x m Hm) as Hx.
  pose proof (WidthFacts.u32_range (x mod m)) as Hu.
  assert (Width.u32 (x mod m) <= x mod m)
    by (unfold Width.u32; apply Z.mod_le; lia).
  lia.
Qed.
(** A run of encode that gets past every check: the header and the payload
    are both embedded at [level], the payload at the chosen offset, and the
    value returned is the result of the save converted to [int]. *)
Lemma encode_run (world : World) (image : Image.t) (input output : string)
    (level : EncodingLevel) (content : list Z) (random : Z) :
  let size := Width.usize (len content) in
  let padded_size := padded_size_of size in
  let max_size := max_size_of encoded_size image level in
  let offset := choose_offset encoded_size random max_size padded_size level in
  let name := filename input in
  read_file world input = Some content ->
  padded_size <= max_size ->
  random_get world = Some random ->
  offset_modulus encoded_size max_size padded_size level <> 0 ->
  len (string_bytes name) <= sizeof_name ->
  encode encoded_size world image input output level =
    ([ Cout (InfoImageSize (Image.w image) (Image.h image));
       Cout (InfoEncodingLevel (level_to_str (level_code level)));
       Cout (InfoMaxEmbedSize max_size);
       Cout (InfoEmbedSize size);
       ImageEncode (header_bytes (build_header level offset padded_size name))
                   sizeof_Header level None;
       ImageEncode (padded_data_of content padded_size) padded_size level
                   (Some offset);
       Cout (InfoEmbedded name);
       ImageSave output;
       Cout (if image_save world output then InfoWrote output else ErrSaveImage) ],
     Returned (if image_save world output then 1 else 0)).
Proof.
  cbv zeta; intros Hread Hfits Hrandom Hmod Hname.
  unfold encode; rewrite Hread; cbv zeta.
  assert (Hgt : (padded_size_of (Width.usize (len content))
                 >? max_size_of encoded_size image level) = false)
    by (rewrite Z.gtb_ltb; apply Z.ltb_ge; lia).
  rewrite Hgt, Hrandom.
  destruct (Z.eqb_spec
              (offset_modulus encoded_size (max_size_of encoded_size image level)
                 (padded_size_of (Width.usize (len content))) level) 0)
    as [E | _]; [contradiction|].
  assert (Hn : (len (string_bytes (filename input)) >? sizeof_name) = false)
    by (rewrite Z.gtb_ltb; apply Z.ltb_ge; lia).
  rewrite Hn.
  destruct (image_save world output); reflexivity.
Qed.

(** X13: some draw always lands the payload on slot 0: the remainder of line
    73 is taken after the header's slot count is added, not before, so for
    every modulus that fits 32 bits the window of offsets starts at slot 0. *)
Lemma offset_zero_reachable (max_size padded_size : Z) (level : EncodingLevel) :
  let modulus := offset_modulus encoded_size max_size padded_size level in
  let header_slots := encoded_size sizeof_Header Low in
  0 < modulus <= 2 ^ 32 ->
  0 <= header_slots < 2 ^ 63 ->
  exists random,
    0 <= random < 2 ^ 32 /\
    choose_offset encoded_size random max_size padded_size level = 0.
Proof.
  cbv zeta; intros Hm Hh.
  set (m := offset_modulus encoded_size max_size padded_size level) in *.
  set (hs := encoded_size sizeof_Header Low) in *.
  exists ((m - hs mod m) mod m).
  pose proof (Z.mod_pos_bound (m - hs mod m) m ltac:(lia)) as Hr.
  split; [lia|].
  unfold choose_offset; fold m; fold hs.
  rewrite (WidthFacts.u32_small ((m - hs mod m) mod m)) by lia.
  rewrite WidthFacts.usize_small by lia.
  rewrite Zplus_mod_idemp_l.
  replace (m - hs mod m + hs) with (m + hs / m * m)
    by (pose proof (Z.div_mod hs m ltac:(lia)); lia).
  rewrite Z_mod_plus_full, Z_mod_same_full.
  reflexivity.
Qed.
End EncodeFacts.

(** ** The program run on concrete inputs, at the densities of the format *)

Abbreviation spec_size := Image.spec_encoded_size.

Lemma max_size_wraps_around_witness :
  max_size_of spec_size (Sample.blank 8 8) Low = 4294966848.
Proof.
  destruct (max_size_wraps_around spec_size (Sample.blank 8 8) Low) as [Heq _].
  - vm_compute; discriminate.
  - vm_compute; reflexivity.
  - vm_compute; split; [discriminate | reflexivity].
  - exact Heq.
Defined.

Lemma capacity_exceeded_witness :
  snd (encode spec_size (Sample.world (repeat 7 16) (Some 5) true (Sample.blank 31 32))
         (Sample.blank 31 32) "f.bin" "out.png" Low) = Returned (-1).
Proof.
  rewrite (capacity_exceeded spec_size _ (Sample.blank 31 32) "f.bin" "out.png" Low
             (repeat 7 16)); [reflexivity | reflexivity | vm_compute; reflexivity].
Defined.

Lemma modulus_zero_at_full_capacity_witness :
  snd (encode spec_size (Sample.world [1; 2; 3] (Some 5) true (Sample.blank 31 32))
         (Sample.blank 31 32) "f.bin" "out.png" Low) = Undefined.
Proof.
  apply (modulus_zero_at_full_capacity spec_size
           (Sample.world [1; 2; 3] (Some 5) true (Sample.blank 31 32))
           (Sample.blank 31 32) "f.bin" "out.png" Low [1; 2; 3] 5);
    vm_compute; reflexivity.
Defined.

(** C1 fails on the code: line 73 adds the header's slot count to the draw
    before taking the remainder, so the result is not kept after the header.
    For a 64 by 64 image at the Low level and a 10-byte file the header ends
    at slot 480 and the modulus is 12416; the draw 11936 gives offset 0, and
    the payload is embedded from slot 0, over the header. *)
Theorem offset_inside_header :
  let image := Sample.blank 64 64 in
  let world := Sample.world Sample.hello (Some 11936) true image in
  let padded_size := padded_size_of (len Sample.hello) in
  let max_size := max_size_of spec_size image Low in
  spec_size sizeof_Header Low = 480 /\
  offset_modulus spec_size max_size padded_size Low = 12416 /\
  choose_offset spec_size 11936 max_size padded_size Low = 0 /\
  In (ImageEncode (padded_data_of Sample.hello padded_size) 16 Low (Some 0))
     (fst (encode spec_size world image "hello.txt" "out.png" Low)).
Proof.
  cbv zeta; repeat split; try (vm_compute; reflexivity).
  vm_compute; tauto.
Qed.

(** ** main *)

(** The usual encode command line reaches [encode] at the compiled-in level,
    and the process exits with whatever [encode] returns. *)
Lemma main_encode (encoded_size : Z -> EncodingLevel -> Z) (world : World)
    (program input_img embed_file output_img : string) (image : Image.t) :
  empty input_img = false ->
  empty embed_file = false ->
  empty output_img = false ->
  image_load world input_img = Some image ->
  main encoded_size world
       [program; "encode"; "-i"; input_img; "-e"; embed_file; "-o"; output_img]%string
  = encode encoded_size world image embed_file output_img LEVEL.
Proof.
  intros Hi He Ho Hload; unfold main.
  change (String.eqb "encode" "encode") with true; cbv iota.
  change (encode_args ["-i"; input_img; "-e"; embed_file; "-o"; output_img]%string
            (EmptyString, EmptyString, EmptyString))
    with (input_img, embed_file, output_img).
  cbv beta iota; rewrite Hi, He, Ho, Hload; reflexivity.
Qed.

(** Every run of decode starts by reading the header region at Low. *)
Lemma decode_reads_header_at_low (world : World) (image : Image.t)
    (output : string) :
  exists rest,
    fst (decode world image output)
    = Cout (InfoImageSize (Image.w image) (Image.h image))
      :: ImageDecode sizeof_Header Low None :: rest.
Proof.
  unfold decode; cbv zeta.
  repeat match goal with
         | |- context [match ?x with _ => _ end] => destruct x
         end;
    eexists; reflexivity.
Qed.

(** C2 fails on the code: line 92 embeds the header at the level chosen for
    the payload, not at Low. In every run of encode that gets past its
    checks, the header bytes go to the image at [level] (at the default
    offset), and nothing is embedded at any other level; decode nevertheless
    reads the header at Low. *)
Theorem header_embedded_at_payload_level
    (encoded_size : Z -> EncodingLevel -> Z) (world : World) (image : Image.t)
    (input output : string) (level : EncodingLevel) (content : list Z)
    (random : Z) :
  let size := Width.usize (len content) in
  let padded_size := padded_size_of size in
  let max_size := max_size_of encoded_size image level in
  let offset := choose_offset encoded_size random max_size padded_size level in
  let trace := fst (encode encoded_size world image input output level) in
  read_file world input = Some content ->
  padded_size <= max_size ->
  random_get world = Some random ->
  offset_modulus encoded_size max_size padded_size level <> 0 ->
  len (string_bytes (filename input)) <= sizeof_name ->
  In (ImageEncode
        (header_bytes (build_header level offset padded_size (filename input)))
        sizeof_Header level None) trace /\
  (forall data size' level' offset',
      In (ImageEncode data size' level' offset') trace -> level' = level) /\
  (forall output', In (ImageDecode sizeof_Header Low None)
                      (fst (decode world image output'))).
Proof.
  cbv zeta; intros Hread Hfits Hrandom Hmod Hname.
  rewrite (encode_run encoded_size world image input output level content random
             Hread Hfits Hrandom Hmod Hname).
  cbn [fst]; split; [|split].
  - cbn; tauto.
  - intros data size' level' offset' Hin; cbn in Hin.
    repeat (destruct Hin as [Hin | Hin];
            [first [discriminate Hin | now inversion Hin]|]).
    contradiction.
  - intros output'.
    destruct (decode_reads_header_at_low world image output') as [rest Hrest].
    rewrite Hrest; cbn; tauto.
Qed.

Lemma header_embedded_at_payload_level_witness :
  let image := Sample.blank 64 64 in
  let world := Sample.world Sample.hello (Some 7) true image in
  In (ImageEncode
        ([72; 73; 68; 69; 1; 0; 1; 0; 231; 1; 0; 0; 16; 0; 0; 0;
          104; 101; 108; 108; 111; 46; 116; 120; 116] ++ repeat 0 35)
        60 Medium None)
     (fst (encode spec_size world image "hello.txt" "out.png" Medium)).
Proof.
  cbv zeta.
  apply (header_embedded_at_payload_level spec_size
           (Sample.world Sample.hello (Some 7) true (Sample.blank 64 64))
           (Sample.blank 64 64) "hello.txt" "out.png" Medium Sample.hello 7);
    vm_compute; first [reflexivity | discriminate].
Defined.

(** C9 fails on the code: encode ends with [return true] after a successful
    save and [return false] after a failed one, and main returns that value.
    For the usual encode command line and a run that gets past the checks of
    encode, the exit status is 1 when the image was saved and 0 when it could
    not be saved. *)
Theorem encode_exit_status_inverted
    (encoded_size : Z -> EncodingLevel -> Z) (world : World)
    (program input_img embed_file output_img : string) (image : Image.t)
    (content : list Z) (random : Z) :
  let size := Width.usize (len content) in
  let padded_size := padded_size_of size in
  let max_size := max_size_of encoded_size image LEVEL in
  let run := main encoded_size world
               [program; "encode"; "-i"; input_img; "-e"; embed_file;
                "-o"; output_img]%string in
  empty input_img = false ->
  empty embed_file = false ->
  empty output_img = false ->
  image_load world input_img = Some image ->
  read_file world embed_file = Some content ->
  padded_size <= max_size ->
  random_get world = Some random ->
  offset_modulus encoded_size max_size padded_size LEVEL <> 0 ->
  len (string_bytes (filename embed_file)) <= sizeof_name ->
  In (ImageSave output_img) (fst run) /\
  (image_save world output_img = true ->
   snd run = Returned 1 /\ exit_status 1 = 1) /\
  (image_save world output_img = false ->
   snd run = Returned 0 /\ exit_status 0 = 0).
Proof.
  cbv zeta; intros Hi He Ho Hload Hread Hfits Hrandom Hmod Hname.
  rewrite (main_encode encoded_size world program input_img embed_file output_img
             image Hi He Ho Hload).
  rewrite (encode_run encoded_size world image embed_file output_img LEVEL content
             random Hread Hfits Hrandom Hmod Hname).
  cbn [fst snd]; split; [cbn; tauto|].
  split; intros Hsave; rewrite Hsave; split; reflexivity.
Qed.

Lemma encode_exit_status_inverted_witness :
  let image := Sample.blank 64 64 in
  snd (main spec_size (Sample.world [1; 2; 3] (Some 5) true image)
         Sample.encode_argv) = Returned 1 /\
  snd (main spec_size (Sample.world [1; 2; 3] (Some 5) false image)
         Sample.encode_argv) = Returned 0.
Proof.
  cbv zeta; split.
  - apply (encode_exit_status_inverted spec_size
             (Sample.world [1; 2; 3] (Some 5) true (Sample.blank 64 64))
             "steganography" "in.png" "f.bin" "out.png" (Sample.blank 64 64)
             [1; 2; 3] 5);
      vm_compute; first [reflexivity | discriminate].
  - apply (encode_exit_status_inverted spec_size
             (Sample.world [1; 2; 3] (Some 5) false (Sample.blank 64 64))
             "steganography" "in.png" "f.bin" "out.png" (Sample.blank 64 64)
             [1; 2; 3] 5);
      vm_compute; first [reflexivity | discriminate].
Defined.

(** ** decode: header validation and trimming *)

Lemma slice_length (from count : nat) (bs : list Z) :
  List.length (slice from count bs) = count.
Proof. unfold slice; apply fixed_field_length. Qed.

Lemma four_bytes (bs : list Z) :
  List.length bs = 4%nat ->
  bs = [nth 0 bs 0; nth 1 bs 0; nth 2 bs 0; nth 3 bs 0].
Proof.
  destruct bs as [|a [|b [|c [|d [|e bs]]]]]; cbn; intros Hlen;
    try discriminate; reflexivity.
Qed.

Lemma all_zero_iff (bs : list Z) :
  existsb (fun r => negb (r =? 0)) bs = false <-> Forall (fun r => r = 0) bs.
Proof.
  induction bs as [|b bs IH]; cbn.
  - split; [constructor | reflexivity].
  - rewrite orb_false_iff, IH, negb_false_iff, Z.eqb_eq.
    split.
    + intros [Hb Hbs]; now constructor.
    + intros Hall; inversion Hall; subst; now split.
Qed.

(** A signature byte that differs: the header is not well formed and the
    first check reports it. *)
Ltac reject_signature E :=
  right; split;
  [ intros [Hs _]; rewrite Hs in E; cbn in E; congruence
  | eexists; split; [reflexivity | cbn; tauto] ].

(** The three checks accept exactly the well-formed headers, and report one of
    the three errors otherwise. *)
Lemma check_header_spec (header : Header) :
  List.length (sig header) = 4%nat ->
  (check_header header = None /\ well_formed header) \/
  (~ well_formed header /\
   exists err, check_header header = Some err /\
               In err [ErrSignature; ErrVersion (version header); ErrReserved]).
Proof.
  intros Hlen; unfold check_header, well_formed.
  destruct (Z.eqb_spec (nth 0 (sig header) 0) 72) as [E0 | E0]; cbn [negb orb];
    [| reject_signature E0].
  destruct (Z.eqb_spec (nth 1 (sig header) 0) 73) as [E1 | E1]; cbn [negb orb];
    [| reject_signature E1].
  destruct (Z.eqb_spec (nth 2 (sig header) 0) 68) as [E2 | E2]; cbn [negb orb];
    [| reject_signature E2].
  destruct (Z.eqb_spec (nth 3 (sig header) 0) 69) as [E3 | E3]; cbn [negb orb];
    [| reject_signature E3].
  destruct (Z.eqb_spec (version header) VERSION) as [Ev | Ev]; cbn [negb].
  2:{ right; split; [intros (_ & Hv & _); congruence|].
      eexists; split; [reflexivity | cbn; tauto]. }
  destruct (existsb (fun r => negb (r =? 0)) (reserved header)) eqn:Er.
  - right; split.
    + intros (_ & _ & Hz); apply all_zero_iff in Hz; congruence.
    + eexists; split; [reflexivity | cbn; tauto].
  - left; split; [reflexivity|].
    apply all_zero_iff in Er.
    rewrite (four_bytes _ Hlen), E0, E1, E2, E3; auto.
Qed.

(** C7: the header decode reads passes the checks exactly when its four
    signature bytes are 'H' 'I' 'D' 'E', its version is 1 and its twelve
    reserved bytes are zero; otherwise decode prints one of the three errors
    and returns -1 at once, having read only the header region: no payload
    is extracted and no file is written. *)
Theorem invalid_header_aborts (world : World) (image : Image.t) (output : string) :
  let header := header_of_bytes (Image.decode image sizeof_Header Low None) in
  (well_formed header -> check_header header = None) /\
  (~ well_formed header ->
   exists err,
     In err [ErrSignature; ErrVersion (version header); ErrReserved] /\
     decode world image output =
       ([ Cout (InfoImageSize (Image.w image) (Image.h image));
          ImageDecode sizeof_Header Low None;
          Cerr err ],
        Returned (-1))).
Proof.
  cbv zeta.
  set (header := header_of_bytes _).
  assert (Hlen : List.length (sig header) = 4%nat) by apply slice_length.
  destruct (check_header_spec header Hlen) as [[Hok Hwf] | (Hnwf & err & Herr & Hin)].
  - split; [intros _; exact Hok | intros Hn; contradiction].
  - split; [intros Hwf; contradiction|].
    intros _; exists err; split; [exact Hin|].
    unfold decode; fold header; rewrite Herr; reflexivity.
Qed.

Lemma invalid_header_aborts_witness :
  check_header (header_of_bytes Sample.good_header) = None /\
  exists err,
    In err [ErrSignature; ErrVersion 1; ErrReserved] /\
    decode (Sample.world [] None true (Sample.blank 1 1))
           (Sample.carrying Sample.bad_header Sample.padded_abc) "out.bin" =
      ([ Cout (InfoImageSize 64 64); ImageDecode sizeof_Header Low None; Cerr err ],
       Returned (-1)).
Proof.
  split.
  - apply (invalid_header_aborts (Sample.world [] None true (Sample.blank 1 1))
             (Sample.carrying Sample.good_header Sample.padded_abc) "out.bin").
    repeat split; vm_compute; repeat constructor.
  - apply (invalid_header_aborts (Sample.world [] None true (Sample.blank 1 1))
             (Sample.carrying Sample.bad_header Sample.padded_abc) "out.bin").
    intros (Hsig & _); vm_compute in Hsig; discriminate Hsig.
Defined.

(** C4, as stated, fails: a payload whose last byte is 0 is not rejected;
    decode writes all sixteen bytes of it to the output file and returns 0. *)
Lemma zero_pad_length_accepted :
  let world := Sample.world [] None true (Sample.blank 1 1) in
  let image := Sample.carrying Sample.good_header Sample.zero_pad in
  last_byte Sample.zero_pad 16 = Some 0 /\
  snd (decode world image "out.bin") = Returned 0 /\
  In (FileWrite "out.bin" Sample.zero_pad) (fst (decode world image "out.bin")) /\
  ~ (exists err, In (Cerr err) (fst (decode world image "out.bin"))).
Proof.
  cbv zeta; repeat split; try (vm_compute; reflexivity).
  - vm_compute; tauto.
  - intros [err Hin]; vm_compute in Hin.
    repeat (destruct Hin as [Hin | Hin]; [discriminate Hin|]); exact Hin.
Qed.

(** C4, amended: for a header that passes the checks and names a level, and a
    payload of the declared size whose last byte [p] is at most that size
    (0 included), decode writes all but the last [p] bytes of the payload to
    the output file and returns 0; it has no padding error. *)
Theorem decode_trims_padding (world : World) (image : Image.t) (output : string)
    (text : string) (lvl : EncodingLevel) (p : Z) :
  let header := header_of_bytes (Image.decode image sizeof_Header Low None) in
  let data := Image.decode image (size header) lvl (Some (offset header)) in
  let out := if String.eqb output EmptyString
             then bytes_string (header_name header) else output in
  check_header header = None ->
  level_to_str (level header) = Some text ->
  level_of_code (level header) = Some lvl ->
  1 <= size header < 2 ^ 32 ->
  len data = size header ->
  last_byte data (size header) = Some p ->
  0 <= p <= size header ->
  open_out world out = true ->
  strip_padding data (size header) = Some (firstn (Z.to_nat (size header - p)) data) /\
  decode world image output =
    ([ Cout (InfoImageSize (Image.w image) (Image.h image));
       ImageDecode sizeof_Header Low None;
       Cout (InfoDetected (header_name header));
       Cout (InfoEncodingLevel (Some text));
       ImageDecode (size header) lvl (Some (offset header));
       FileWrite out (firstn (Z.to_nat (size header - p)) data);
       Cout (InfoWrote out) ],
     Returned 0).
Proof.
  cbv zeta.
  set (header := header_of_bytes _).
  set (data := Image.decode image (size header) lvl (Some (offset header))).
  intros Hcheck Htext Hlvl Hsize Hlen Hlast Hp Hopen.
  assert (Hwritten : written_bytes data (trimmed_size (size header) p)
                     = Some (firstn (Z.to_nat (size header - p)) data)).
  { unfold written_bytes, trimmed_size.
    rewrite WidthFacts.u32_small by lia.
    destruct (Z.leb_spec (size header - p) (len data)) as [_ | Hbad]; [reflexivity | lia]. }
  split.
  - unfold strip_padding; rewrite Hlast; exact Hwritten.
  - unfold decode; fold header; rewrite Hcheck, Htext, Hlvl; cbv zeta.
    fold data; rewrite Hlast, Hopen, Hwritten; reflexivity.
Qed.

Lemma decode_trims_padding_witness :
  decode (Sample.world [] None true (Sample.blank 1 1))
         (Sample.carrying Sample.good_header Sample.padded_abc) "out.bin" =
    ([ Cout (InfoImageSize 64 64);
       ImageDecode sizeof_Header Low None;
       Cout (InfoDetected [102; 46; 98; 105; 110]);
       Cout (InfoEncodingLevel (Some "Low (Default)"%string));
       ImageDecode 16 Low (Some 485);
       FileWrite "out.bin" [97; 98; 99];
       Cout (InfoWrote "out.bin") ],
     Returned 0).
Proof.
  apply (decode_trims_padding (Sample.world [] None true (Sample.blank 1 1))
           (Sample.carrying Sample.good_header Sample.padded_abc) "out.bin"
           "Low (Default)" Low 13);
    vm_compute; try reflexivity;
    split; first [reflexivity | discriminate].
Defined.

(** * Further properties of the program *)

(** ** Padding *)

(** X8: the two branches of lines 44 to 46 compute the same thing: for every
    file size the padded size is the next multiple of 16 strictly above it,
    [(size / 16 + 1) * 16]; an empty file is padded to one full block. *)
Theorem padded_size_closed_form (n : Z) :
  0 <= n < 2 ^ 63 ->
  padded_size_of n = (n / 16 + 1) * 16 /\
  (n mod 16 = 0 -> padded_size_of n = n + 16).
Proof.
  intros Hn.
  assert (Hq : n + 1 <= (n / 16 + 1) * 16 <= n + 16)
    by (Z.to_euclidean_division_equations; lia).
  assert (Heq : padded_size_of n = (n / 16 + 1) * 16).
  { unfold padded_size_of.
    rewrite (WidthFacts.usize_small (n + 1)) by lia.
    rewrite (WidthFacts.usize_small ((n / 16 + 1) * 16)) by lia.
    destruct (Z.eqb_spec ((n + 1) mod 16) 0) as [E | E]; cbn [negb];
      [|reflexivity].
    Z.to_euclidean_division_equations; lia. }
  split; [exact Heq|].
  intros Hmod; rewrite Heq.
  Z.to_euclidean_division_equations; lia.
Qed.

Lemma padded_size_closed_form_witness :
  padded_size_of 0 = 16 /\ padded_size_of 32 = 48.
Proof.
  split.
  - apply (padded_size_closed_form 0); vm_compute;
      first [reflexivity | split; first [reflexivity | discriminate]].
  - apply (padded_size_closed_form 32); vm_compute;
      first [reflexivity | split; first [reflexivity | discriminate]].
Defined.

(** ** The header on its way through the image *)

Lemma le_value_2 (x : Z) :
  0 <= x < 2 ^ 16 -> Width.le_value (Width.le_bytes 2 x) = x.
Proof.
  intros Hx; cbn [Width.le_bytes Width.le_value].
  Z.to_euclidean_division_equations; lia.
Qed.

Lemma le_value_1 (x : Z) :
  0 <= x < 2 ^ 8 -> Width.le_value (Width.le_bytes 1 x) = x.
Proof.
  intros Hx; cbn [Width.le_bytes Width.le_value].
  Z.to_euclidean_division_equations; lia.
Qed.

Lemma le_value_4 (x : Z) :
  0 <= x < 2 ^ 32 -> Width.le_value (Width.le_bytes 4 x) = x.
Proof.
  intros Hx; cbn [Width.le_bytes Width.le_value].
  Z.to_euclidean_division_equations; lia.
Qed.

(** Skipping a whole field, and taking a whole field. *)
Lemma slice_drop (pre rest : list Z) (from count a : nat) :
  List.length pre = a -> (a <= from)%nat ->
  slice from count (pre ++ rest) = slice (from - a) count rest.
Proof.
  intros Hlen Hle; unfold slice; subst a.
  rewrite skipn_app, skipn_all2 by lia.
  reflexivity.
Qed.

Lemma slice_take (field post : list Z) (count : nat) :
  List.length field = count -> slice 0 count (field ++ post) = field.
Proof.
  intros Hlen; unfold slice; cbn [skipn]; subst count.
  rewrite <- app_assoc, firstn_app, firstn_all, Nat.sub_diag.
  cbn [firstn]; apply app_nil_r.
Qed.

Lemma fixed_field_id (n : nat) (bs : list Z) :
  List.length bs = n -> firstn n (bs ++ repeat 0 n) = bs.
Proof.
  intros Hlen; subst n.
  rewrite firstn_app, firstn_all, Nat.sub_diag; cbn [firstn].
  apply app_nil_r.
Qed.

Ltac skip_field f from count a :=
  rewrite (slice_drop f _ from count a) by (assumption || lia);
  cbn [Nat.sub].

(** Copying a header out of the bytes it was written as gives the same header
    back, for every header whose members hold values of their declared
    widths: serialisation (line 92) and [memcpy] (line 111) are inverse. *)
Lemma header_bytes_inverse (hd : Header) :
  representable hd -> header_of_bytes (header_bytes hd) = hd.
Proof.
  destruct hd as [sg ver lvl fl off sz nm rsv].
  unfold representable; cbn [sig version level flags offset size name reserved].
  intros (Hsig & Hver & Hlvl & Hfl & Hoff & Hsz & Hnm & Hrsv).
  unfold header_of_bytes, header_bytes;
    cbn [sig version level flags offset size name reserved].
  rewrite !fixed_field_id by assumption.
  pose proof (WidthFacts.le_bytes_length 2 ver) as L2.
  pose proof (WidthFacts.le_bytes_length 1 lvl) as L3.
  pose proof (WidthFacts.le_bytes_length 1 fl) as L4.
  pose proof (WidthFacts.le_bytes_length 4 off) as L5.
  pose proof (WidthFacts.le_bytes_length 4 sz) as L6.
  set (B := Width.le_bytes 2 ver) in *.
  set (C := Width.le_bytes 1 lvl) in *.
  set (D := Width.le_bytes 1 fl) in *.
  set (E := Width.le_bytes 4 off) in *.
  set (F := Width.le_bytes 4 sz) in *.
  rewrite (slice_take sg _ 4) by assumption.
  skip_field sg 4%nat 2%nat 4%nat.
  rewrite (slice_take B _ 2) by assumption.
  skip_field sg 6%nat 1%nat 4%nat. skip_field B 2%nat 1%nat 2%nat.
  rewrite (slice_take C _ 1) by assumption.
  skip_field sg 7%nat 1%nat 4%nat. skip_field B 3%nat 1%nat 2%nat.
  skip_field C 1%nat 1%nat 1%nat.
  rewrite (slice_take D _ 1) by assumption.
  skip_field sg 8%nat 4%nat 4%nat. skip_field B 4%nat 4%nat 2%nat.
  skip_field C 2%nat 4%nat 1%nat. skip_field D 1%nat 4%nat 1%nat.
  rewrite (slice_take E _ 4) by assumption.
  skip_field sg 12%nat 4%nat 4%nat. skip_field B 8%nat 4%nat 2%nat.
  skip_field C 6%nat 4%nat 1%nat. skip_field D 5%nat 4%nat 1%nat.
  skip_field E 4%nat 4%nat 4%nat.
  rewrite (slice_take F _ 4) by assumption.
  skip_field sg 16%nat 32%nat 4%nat. skip_field B 12%nat 32%nat 2%nat.
  skip_field C 10%nat 32%nat 1%nat. skip_field D 9%nat 32%nat 1%nat.
  skip_field E 8%nat 32%nat 4%nat. skip_field F 4%nat 32%nat 4%nat.
  rewrite (slice_take nm _ 32) by assumption.
  skip_field sg 48%nat 12%nat 4%nat. skip_field B 44%nat 12%nat 2%nat.
  skip_field C 42%nat 12%nat 1%nat. skip_field D 41%nat 12%nat 1%nat.
  skip_field E 40%nat 12%nat 4%nat. skip_field F 36%nat 12%nat 4%nat.
  skip_field nm 32%nat 12%nat 32%nat.
  rewrite <- (app_nil_r rsv).
  rewrite (slice_take rsv [] 12) by assumption.
  rewrite app_nil_r.
  subst B C D E F.
  rewrite le_value_2, !le_value_1, !le_value_4 by assumption.
  reflexivity.
Qed.

(** ** The header encode builds *)

Lemma string_bytes_length (s : string) :
  List.length (string_bytes s) = String.length s.
Proof.
  unfold string_bytes; rewrite length_map.
  induction s as [|c s IH]; cbn; [reflexivity | now rewrite IH].
Qed.

Lemma bytes_string_bytes (s : string) : bytes_string (string_bytes s) = s.
Proof.
  unfold bytes_string, string_bytes; rewrite map_map.
  rewrite <- (string_of_list_ascii_of_string s) at 2.
  f_equal.
  induction (list_ascii_of_string s) as [|c l IH]; cbn [map]; [reflexivity|].
  now rewrite Nat2Z.id, ascii_nat_embedding, IH.
Qed.

Lemma build_header_name_length (level : EncodingLevel) (off padded_size : Z)
    (nm : string) :
  len (string_bytes nm) <= sizeof_name ->
  List.length (name (build_header level off padded_size nm)) = 32%nat.
Proof.
  unfold build_header, sizeof_name, len; cbn [name]; intros Hfit.
  rewrite length_app, repeat_length; lia.
Qed.

Lemma build_header_representable (level : EncodingLevel) (off padded_size : Z)
    (nm : string) :
  0 <= off < 2 ^ 32 ->
  len (string_bytes nm) <= sizeof_name ->
  representable (build_header level off padded_size nm).
Proof.
  intros Hoff Hfit.
  pose proof (build_header_name_length level off padded_size nm Hfit) as Hn.
  pose proof (WidthFacts.u32_range padded_size) as Hs.
  unfold representable; repeat split; try assumption; try apply Hoff;
    try apply Hs; try (destruct level; vm_compute; congruence);
    try (vm_compute; congruence).
Qed.

Lemma c_string_stops (bs rest : list Z) :
  Forall (fun b => b <> 0) bs -> c_string (bs ++ 0 :: rest) = bs.
Proof.
  induction 1 as [|b bs Hb _ IH]; cbn [app c_string]; [reflexivity|].
  destruct (Z.eqb_spec b 0) as [E | _]; [contradiction | now rewrite IH].
Qed.

(** The name read from a header encode built is the name stored: a shorter
    name ends at its first zero, and a name of exactly 32 bytes, stored
    without a terminator, is taken whole. *)
Lemma header_name_build (level : EncodingLevel) (off padded_size : Z)
    (nm : string) :
  len (string_bytes nm) <= sizeof_name ->
  Forall (fun b => b <> 0) (string_bytes nm) ->
  header_name (build_header level off padded_size nm) = string_bytes nm /\
  bytes_string (header_name (build_header level off padded_size nm)) = nm.
Proof.
  intros Hfit Hnz.
  assert (Hname : header_name (build_header level off padded_size nm)
                  = string_bytes nm).
  { unfold header_name, build_header, sizeof_name in *; cbn [name].
    set (bs := string_bytes nm) in *.
    change (Z.to_nat (32 - 1)) with 31%nat.
    change (Z.to_nat 32) with 32%nat.
    pose proof (len_nonneg bs) as H0.
    destruct (Z.eq_dec (len bs) 32) as [Efull | Eshort].
    - rewrite Efull; cbn [Z.sub Z.to_nat repeat Z.pos_sub]; rewrite app_nil_r.
      assert (Hlen : List.length bs = 32%nat) by (unfold len in Efull; lia).
      assert (Hlast : nth 31 bs 0 <> 0).
      { apply (proj1 (Forall_forall _ bs) Hnz), nth_In; lia. }
      destruct (Z.eqb_spec (nth 31 bs 0) 0) as [E | _]; [contradiction|].
      cbn [negb]; rewrite <- Hlen; apply firstn_all.
    - assert (Hk : exists k, Z.to_nat (32 - len bs) = S k)
        by (exists (Z.to_nat (32 - len bs) - 1)%nat; lia).
      destruct Hk as [k Hk]; rewrite Hk.
      assert (Hzero : nth 31 (bs ++ repeat 0 (S k)) 0 = 0).
      { rewrite app_nth2 by (unfold len in *; lia). apply nth_repeat. }
      rewrite Hzero; cbn [Z.eqb negb repeat].
      apply c_string_stops; exact Hnz. }
  split; [exact Hname|].
  rewrite Hname; apply bytes_string_bytes.
Qed.

Lemma build_header_well_formed (level : EncodingLevel) (off padded_size : Z)
    (nm : string) :
  well_formed (build_header level off padded_size nm).
Proof.
  unfold well_formed, build_header; cbn [sig version reserved].
  repeat split; vm_compute; repeat constructor.
Qed.

Lemma build_header_checked (level : EncodingLevel) (off padded_size : Z)
    (nm : string) :
  check_header (build_header level off padded_size nm) = None.
Proof.
  destruct (check_header_spec (build_header level off padded_size nm))
    as [[Hok _] | [Hbad _]]; [reflexivity | exact Hok |].
  exfalso; apply Hbad, build_header_well_formed.
Qed.

(** X1: the header encode serialises (lines 75 to 92) is the header decode
    obtains from those bytes (line 111), for every level, every 32-bit offset,
    every padded size and every name of at most 32 bytes; it passes decode's
    three checks, and its level, offset and size fields give back the level,
    the offset and the padded size (in 32 bits) that encode used. *)
Theorem header_round_trip (lvl : EncodingLevel) (off padded_size : Z)
    (nm : string) :
  0 <= off < 2 ^ 32 ->
  len (string_bytes nm) <= sizeof_name ->
  let header := header_of_bytes
                  (header_bytes (build_header lvl off padded_size nm)) in
  header = build_header lvl off padded_size nm /\
  check_header header = None /\
  level_of_code (level header) = Some lvl /\
  level_to_str (level header) = level_to_str (level_code lvl) /\
  offset header = off /\
  size header = Width.u32 padded_size.
Proof.
  intros Hoff Hfit; cbv zeta.
  rewrite header_bytes_inverse
    by (apply build_header_representable; assumption).
  split; [reflexivity|].
  split; [apply build_header_checked|].
  split; [destruct lvl; reflexivity|].
  split; [destruct lvl; reflexivity|].
  split; reflexivity.
Qed.

Lemma header_round_trip_witness :
  header_of_bytes Sample.good_header = build_header Low 485 16 "f.bin".
Proof.
  change Sample.good_header with (header_bytes (build_header Low 485 16 "f.bin")).
  apply (header_round_trip Low 485 16 "f.bin").
  - vm_compute; split; first [reflexivity | discriminate].
  - vm_compute; discriminate.
Defined.

(** X2: decode reads back from the header bytes the name encode stored, for
    every name of at most 32 bytes without a zero byte, a name of exactly 32
    bytes (stored without terminator) included; the output name it falls back
    to is that name. *)
Theorem name_round_trip (level : EncodingLevel) (off padded_size : Z)
    (nm : string) :
  0 <= off < 2 ^ 32 ->
  len (string_bytes nm) <= sizeof_name ->
  Forall (fun b => b <> 0) (string_bytes nm) ->
  let header := header_of_bytes
                  (header_bytes (build_header level off padded_size nm)) in
  header_name header = string_bytes nm /\
  bytes_string (header_name header) = nm.
Proof.
  intros Hoff Hfit Hnz; cbv zeta.
  rewrite header_bytes_inverse
    by (apply build_header_representable; assumption).
  apply header_name_build; assumption.
Qed.

Lemma name_round_trip_witness :
  bytes_string
    (header_name
       (header_of_bytes
          (header_bytes
             (build_header Low 0 16 "0123456789abcdef0123456789abcdef"))))
  = "0123456789abcdef0123456789abcdef"%string /\
  bytes_string (header_name (header_of_bytes Sample.good_header)) = "f.bin"%string.
Proof.
  split.
  - apply (name_round_trip Low 0 16 "0123456789abcdef0123456789abcdef").
    + vm_compute; split; first [reflexivity | discriminate].
    + vm_compute; discriminate.
    + vm_compute; repeat constructor; discriminate.
  - change Sample.good_header
      with (header_bytes (build_header Low 485 16 "f.bin")).
    apply (name_round_trip Low 485 16 "f.bin").
    + vm_compute; split; first [reflexivity | discriminate].
    + vm_compute; discriminate.
    + vm_compute; repeat constructor; discriminate.
Defined.

(** ** What the runs never do *)

(** Case analysis on every test a run makes, keeping the equations. *)
Ltac split_run :=
  repeat match goal with
         | |- context [match ?x with _ => _ end] => destruct x eqn:?
         | H : context [match ?x with _ => _ end] |- _ => destruct x eqn:?
         end.

(** No event of the list is one of those [In] names. *)
Ltac no_such_event H :=
  cbn in H;
  repeat (destruct H as [H | H]; [discriminate H|]);
  contradiction.

Section RunFacts.
Variable encoded_size : Z -> EncodingLevel -> Z.

(** X4: a run of encode that returns -1, or stops at the modulo by zero,
    has not touched the image: nothing was embedded in it and no save was
    attempted. Every check of encode comes before the first change. *)
Theorem encode_failure_touches_nothing (world : World) (image : Image.t)
    (input output : string) (level : EncodingLevel) :
  let run := encode encoded_size world image input output level in
  snd run = Returned (-1) \/ snd run = Undefined ->
  Forall (fun e => touches_image e = false) (fst run).
Proof.
  cbv zeta; unfold encode; cbv zeta.
  split_run; cbn [fst snd app]; intros [H | H]; try discriminate H;
    repeat constructor.
Qed.

(** Everything encode embeds, it embeds at the level it was called with. *)
Lemma encode_embeds_at_level (world : World) (image : Image.t)
    (input output : string) (level : EncodingLevel) :
  Forall (embeds_at level)
         (fst (encode encoded_size world image input output level)).
Proof.
  unfold encode; cbv zeta.
  split_run; cbn [fst app]; repeat constructor.
Qed.

(** encode writes no file of its own. *)
Lemma encode_writes_no_file (world : World) (image : Image.t)
    (input output : string) (level : EncodingLevel) :
  Forall writes_named
         (fst (encode encoded_size world image input output level)).
Proof.
  unfold encode; cbv zeta.
  split_run; cbn [fst app]; repeat constructor.
Qed.
End RunFacts.

(** decode embeds nothing. *)
Lemma decode_embeds_nothing (world : World) (image : Image.t) (output : string)
    (lvl : EncodingLevel) :
  Forall (embeds_at lvl) (fst (decode world image output)).
Proof.
  unfold decode; cbv zeta.
  split_run; cbn [fst app]; repeat constructor.
Qed.

(** Given a non-empty output name, decode writes to that name only. *)
Lemma decode_writes_named (world : World) (image : Image.t) (output : string) :
  empty output = false ->
  Forall writes_named (fst (decode world image output)).
Proof.
  intros Hout; unfold decode; cbv zeta.
  change (String.eqb output EmptyString) with (empty output); rewrite Hout.
  split_run; cbn [fst app]; repeat constructor; assumption.
Qed.

(** X6: decode returns 0 exactly when it has written the output file, and it
    never changes or saves the image it reads. *)
Theorem decode_returns_zero_iff_written (world : World) (image : Image.t)
    (output : string) :
  (snd (decode world image output) = Returned 0 <->
   exists out data, In (FileWrite out data) (fst (decode world image output))) /\
  Forall (fun e => touches_image e = false) (fst (decode world image output)).
Proof.
  unfold decode; cbv zeta.
  split_run; cbn [fst snd app]; (split; [split|]);
    try (intros H; discriminate H);
    try (intros (out & data & H); no_such_event H);
    try (intros _; do 2 eexists; cbn; do 5 right; left; reflexivity);
    try reflexivity;
    repeat constructor.
Qed.

Lemma decode_returns_zero_iff_written_witness :
  exists out data,
    In (FileWrite out data)
       (fst (decode (Sample.world [] None true (Sample.blank 1 1))
               (Sample.carrying Sample.good_header Sample.padded_abc) "out.bin")).
Proof.
  apply (decode_returns_zero_iff_written
           (Sample.world [] None true (Sample.blank 1 1))
           (Sample.carrying Sample.good_header Sample.padded_abc) "out.bin").
  vm_compute; reflexivity.
Defined.

Lemma encode_failure_touches_nothing_witness :
  Forall (fun e => touches_image e = false)
         (fst (encode spec_size
                 (Sample.world (repeat 7 16) (Some 5) true (Sample.blank 31 32))
                 (Sample.blank 31 32) "f.bin" "out.png" Low)).
Proof.
  apply (encode_failure_touches_nothing spec_size
           (Sample.world (repeat 7 16) (Some 5) true (Sample.blank 31 32))
           (Sample.blank 31 32) "f.bin" "out.png" Low).
  left; vm_compute; reflexivity.
Defined.

(** X5: whatever the command line, the program embeds only at the Low level:
    main passes the compiled-in [LEVEL] to encode, and decode embeds nothing. *)
Theorem main_embeds_at_low (encoded_size : Z -> EncodingLevel -> Z)
    (world : World) (argv : list string) :
  Forall (embeds_at Low) (fst (main encoded_size world argv)).
Proof.
  unfold main.
  destruct argv as [|program [|mode args]]; [repeat constructor..|].
  destruct (String.eqb mode "encode").
  - destruct (encode_args args _) as [[input_img embed_file] output_img].
    destruct (_ || _); [repeat constructor|].
    destruct (image_load world input_img); [|repeat constructor].
    apply encode_embeds_at_level.
  - destruct (String.eqb mode "decode"); [|repeat constructor].
    destruct (decode_args args _) as [input_img output_file].
    destruct (_ || _); [repeat constructor|].
    destruct (image_load world input_img); [|repeat constructor].
    apply decode_embeds_nothing.
Qed.

(** X7: through main, no file is ever written under an empty name: decode's
    fallback to the embedded name (lines 144 and 145) is never taken, because
    main refuses a decode command line without an output name. *)
Theorem main_writes_named (encoded_size : Z -> EncodingLevel -> Z)
    (world : World) (argv : list string) :
  Forall writes_named (fst (main encoded_size world argv)).
Proof.
  unfold main.
  destruct argv as [|program [|mode args]]; [repeat constructor..|].
  destruct (String.eqb mode "encode").
  - destruct (encode_args args _) as [[input_img embed_file] output_img].
    destruct (_ || _); [repeat constructor|].
    destruct (image_load world input_img); [|repeat constructor].
    apply encode_writes_no_file.
  - destruct (String.eqb mode "decode"); [|repeat constructor].
    destruct (decode_args args _) as [input_img output_file].
    destruct (empty input_img) eqn:Hi; [repeat constructor|].
    destruct (empty output_file) eqn:Ho; [repeat constructor|].
    cbn [orb].
    destruct (image_load world input_img); [|repeat constructor].
    apply decode_writes_named; exact Ho.
Qed.

(** ** encode and decode together *)

(** What decode's trim finds in a payload padded by encode. *)
Lemma trim_of_padded (raw : list Z) :
  len raw < 2 ^ 63 ->
  padded_size_of (len raw) < 2 ^ 32 ->
  let p := padded_size_of (len raw) in
  last_byte (padded_data_of raw p) p = Some (p - len raw) /\
  written_bytes (padded_data_of raw p) (trimmed_size p (p - len raw)) = Some raw.
Proof.
  intros Hn H32; cbv zeta.
  pose proof (len_nonneg raw) as H0.
  destruct (padded_size_of_spec (len raw)) as [_ Hrange]; [lia|].
  set (p := padded_size_of (len raw)) in *.
  rewrite (padded_data_of_eq raw p) by lia.
  split.
  - unfold last_byte; rewrite WidthFacts.u32_small by lia.
    replace (Z.to_nat (p - 1))
      with (List.length raw + Z.to_nat (p - len raw) - 1)%nat
      by (unfold len in *; lia).
    apply last_of_padding; lia.
  - unfold written_bytes, trimmed_size.
    replace (p - (p - len raw)) with (len raw) by lia.
    rewrite WidthFacts.u32_small by lia.
    rewrite len_app, len_repeat by lia.
    destruct (Z.leb_spec (len raw) (len raw + (p - len raw))) as [_ | Hbad];
      [|lia].
    unfold len; rewrite Nat2Z.id, firstn_app, firstn_all, Nat.sub_diag.
    cbn [firstn]; now rewrite app_nil_r.
Qed.

(** A run of encode that returns 1 got past every check. *)
Lemma encode_success_inv (encoded_size : Z -> EncodingLevel -> Z)
    (world : World) (image : Image.t) (input output : string)
    (level : EncodingLevel) (content : list Z) :
  read_file world input = Some content ->
  snd (encode encoded_size world image input output level) = Returned 1 ->
  exists random,
    random_get world = Some random /\
    padded_size_of (Width.usize (len content))
      <= max_size_of encoded_size image level /\
    offset_modulus encoded_size (max_size_of encoded_size image level)
      (padded_size_of (Width.usize (len content))) level <> 0 /\
    len (string_bytes (filename input)) <= sizeof_name.
Proof.
  intros Hread; unfold encode; rewrite Hread; cbv zeta.
  destruct (Z.gtb_spec (padded_size_of (Width.usize (len content)))
              (max_size_of encoded_size image level)) as [Hgt | Hle];
    [intros H; discriminate H|].
  destruct (random_get world) as [random|]; [|intros H; discriminate H].
  destruct (Z.eqb_spec
              (offset_modulus encoded_size (max_size_of encoded_size image level)
                 (padded_size_of (Width.usize (len content))) level) 0)
    as [Ez | Enz]; [intros H; discriminate H|].
  destruct (Z.gtb_spec (len (string_bytes (filename input))) sizeof_name)
    as [Hlong | Hfit]; [intros H; discriminate H|].
  intros _; exists random; repeat split; assumption || lia.
Qed.

(** X3: what encode hides, decode finds. If encode, run at the Low level on a
    file of contents [content], returns 1 (the image was saved), then decode,
    run on any image that gives back what that run embedded, writes exactly
    [content] to the output file and returns 0; with an empty output name the
    file is written under the embedded file name. *)
Theorem encode_then_decode (encoded_size : Z -> EncodingLevel -> Z)
    (world : World) (image : Image.t) (input output : string)
    (content : list Z) (world' : World) (image' : Image.t) (output' : string) :
  let run := encode encoded_size world image input output Low in
  let out := if empty output' then filename input else output' in
  read_file world input = Some content ->
  len content < 2 ^ 63 ->
  Forall (fun b => b <> 0) (string_bytes (filename input)) ->
  snd run = Returned 1 ->
  holds image' (fst run) ->
  open_out world' out = true ->
  snd (decode world' image' output') = Returned 0 /\
  In (FileWrite out content) (fst (decode world' image' output')).
Proof.
  cbv zeta; intros Hread Hlen Hnz Hret Hholds Hopen.
  destruct (encode_success_inv encoded_size world image input output Low content
              Hread Hret) as (random & Hrandom & Hfits & Hmod & Hname).
  unfold holds in Hholds.
  rewrite (encode_run encoded_size world image input output Low content random
             Hread Hfits Hrandom Hmod Hname) in Hholds.
  cbn [fst] in Hholds.
  pose proof (len_nonneg content) as H0.
  rewrite (WidthFacts.usize_small (len content)) in * by lia.
  set (max_size := max_size_of encoded_size image Low) in *.
  set (p := padded_size_of (len content)) in *.
  set (off := choose_offset encoded_size random max_size p Low) in *.
  set (nm := filename input) in *.
  assert (Hmax : 0 <= max_size < 2 ^ 32) by apply WidthFacts.u32_range.
  assert (Hoff : 0 <= off < 2 ^ 32) by apply WidthFacts.u32_range.
  destruct (padded_size_of_spec (len content)) as [_ Hp]; [lia|]; fold p in Hp.
  assert (Hheader : Image.decode image' sizeof_Header Low None
                    = header_bytes (build_header Low off p nm))
    by (apply Hholds; cbn; tauto).
  assert (Hdata : Image.decode image' p Low (Some off) = padded_data_of content p)
    by (apply Hholds; cbn; tauto).
  destruct (trim_of_padded content) as [Hlast Hwritten]; [lia | fold p; lia|].
  fold p in Hlast, Hwritten.
  destruct (header_name_build Low off p nm Hname Hnz) as [_ Hback].
  unfold decode; cbv zeta.
  rewrite Hheader, header_bytes_inverse
    by (apply build_header_representable; assumption).
  rewrite build_header_checked.
  change (level (build_header Low off p nm)) with 0.
  change (level_to_str 0) with (Some "Low (Default)"%string).
  change (level_of_code 0) with (Some Low).
  change (offset (build_header Low off p nm)) with off.
  change (size (build_header Low off p nm)) with (Width.u32 p).
  rewrite (WidthFacts.u32_small p) by lia.
  rewrite Hdata, Hlast, Hback.
  change (String.eqb output' EmptyString) with (empty output').
  rewrite Hopen, Hwritten; cbn [negb fst snd].
  split; [reflexivity|].
  cbn; do 5 right; left; reflexivity.
Qed.

Lemma encode_then_decode_witness :
  In (FileWrite "out.bin" [97; 98; 99])
     (fst (decode (Sample.world [] None true (Sample.blank 1 1))
             (Sample.carrying Sample.good_header Sample.padded_abc) "out.bin")).
Proof.
  apply (encode_then_decode spec_size
           (Sample.world [97; 98; 99] (Some 5) true (Sample.blank 64 64))
           (Sample.blank 64 64) "f.bin" "out.png" [97; 98; 99]
           (Sample.world [] None true (Sample.blank 1 1))
           (Sample.carrying Sample.good_header Sample.padded_abc) "out.bin").
  - reflexivity.
  - vm_compute; reflexivity.
  - vm_compute; repeat constructor; discriminate.
  - vm_compute; reflexivity.
  - intros data size level offset Hin; vm_compute in Hin.
    repeat (destruct Hin as [Hin | Hin];
            [first [discriminate Hin | inversion Hin; subst; reflexivity]|]).
    contradiction.
  - reflexivity.
Defined.

(** ** Where the payload lands *)

(** X9: when the image holds a header and the padded size is strictly below
    the computed maximum, the payload fits: for a slot count linear in the
    byte count ([k] slots per byte), whatever is drawn, the payload's slots
    [offset, offset + encoded_size(padded_size)) end at least the header's
    slot count before the end of the image's [w * h * 4] slots. *)
Theorem payload_fits (encoded_size : Z -> EncodingLevel -> Z) (image : Image.t)
    (level : EncodingLevel) (random padded_size k : Z) :
  let slots := Image.w image * Image.h image * 4 in
  let header_slots := encoded_size sizeof_Header Low in
  let max_size := max_size_of encoded_size image level in
  let offset := choose_offset encoded_size random max_size padded_size level in
  1 <= k ->
  (forall n, 0 <= n -> encoded_size n level = n * k) ->
  0 <= header_slots <= slots / k ->
  slots / k - header_slots < 2 ^ 32 ->
  0 <= padded_size < max_size ->
  0 <= offset /\
  offset + encoded_size padded_size level <= slots - header_slots.
Proof.
  cbv zeta; intros Hk Hlin Hh H32 Hp.
  set (slots := Image.w image * Image.h image * 4) in *.
  set (hs := encoded_size sizeof_Header Low) in *.
  assert (Hmax : max_size_of encoded_size image level = slots / k - hs).
  { unfold max_size_of; fold slots; fold hs.
    rewrite (Hlin 1) by lia; rewrite Z.mul_1_l.
    apply WidthFacts.u32_small; lia. }
  rewrite Hmax in *.
  set (m := slots / k - hs) in *.
  assert (Hmod : offset_modulus encoded_size m padded_size level
                 = (m - padded_size) * k).
  { unfold offset_modulus.
    rewrite WidthFacts.usize_small by lia.
    apply Hlin; lia. }
  pose proof (choose_offset_below_modulus encoded_size random m padded_size level)
    as Hbelow.
  rewrite Hmod in Hbelow.
  assert (Hpos : 0 < (m - padded_size) * k) by nia.
  specialize (Hbelow Hpos).
  rewrite (Hlin padded_size) by lia.
  assert (Hslots : slots / k * k <= slots).
  { rewrite Z.mul_comm; apply Z.mul_div_le; lia. }
  split; [lia|].
  assert (Z.min ((m - padded_size) * k) (2 ^ 32) <= (m - padded_size) * k)
    by apply Z.le_min_l.
  subst m; nia.
Qed.

Lemma payload_fits_witness :
  choose_offset spec_size 11936 (max_size_of spec_size (Sample.blank 64 64) Low)
    16 Low
  + spec_size 16 Low <= 64 * 64 * 4 - spec_size sizeof_Header Low.
Proof.
  apply (payload_fits spec_size (Sample.blank 64 64) Low 11936 16 8).
  - lia.
  - intros n Hn; unfold Image.spec_encoded_size, Image.encoded_size; cbn.
    rewrite Z.div_1_r; lia.
  - vm_compute; split; discriminate.
  - vm_compute; reflexivity.
  - vm_compute; split; first [reflexivity | discriminate].
Defined.

(** ** The command line *)

Lemma is_flag_true (short long arg : string) :
  is_flag short long arg = true -> arg = short \/ arg = long.
Proof.
  unfold is_flag; intros H; apply orb_true_iff in H.
  destruct H as [H | H]; apply String.eqb_eq in H; tauto.
Qed.

(** X12: the options of the encode command line may come in any order and in
    their short or long form: whatever the values are (a value is taken as
    it stands, even when it looks like a flag), the three option loops of
    main find the same image, file and output names; likewise for decode. *)
Theorem options_in_any_order (fi fe fo i e o : string)
    (args : list string) (init : string * string * string)
    (init' : string * string) :
  is_flag "-i" "--input" fi = true ->
  is_flag "-e" "--embed" fe = true ->
  is_flag "-o" "--output" fo = true ->
  In args [ [fi; i; fe; e; fo; o]; [fi; i; fo; o; fe; e];
            [fe; e; fi; i; fo; o]; [fe; e; fo; o; fi; i];
            [fo; o; fi; i; fe; e]; [fo; o; fe; e; fi; i] ] ->
  encode_args args init = (i, e, o) /\
  decode_args [fi; i; fo; o] init' = (i, o) /\
  decode_args [fo; o; fi; i] init' = (i, o).
Proof.
  intros Hi He Ho Hargs.
  destruct init as [[a b] c]; destruct init' as [a' b'].
  apply is_flag_true in Hi, He, Ho.
  cbn [In] in Hargs.
  destruct Hi as [-> | ->], He as [-> | ->], Ho as [-> | ->];
    (repeat split; [|reflexivity..]);
    repeat (destruct Hargs as [<- | Hargs]; [reflexivity|]);
    contradiction.
Qed.

Lemma options_in_any_order_witness :
  encode_args ["--output"; "out.png"; "-e"; "-i"; "--input"; "in.png"]%string
              (EmptyString, EmptyString, EmptyString)
  = ("in.png", "-i", "out.png")%string.
Proof.
  apply (options_in_any_order "--input" "-e" "--output" "in.png" "-i" "out.png"
           ["--output"; "out.png"; "-e"; "-i"; "--input"; "in.png"]%string
           (EmptyString, EmptyString, EmptyString) (EmptyString, EmptyString));
    try reflexivity.
  cbn; tauto.
Defined.

Lemma offset_zero_reachable_witness :
  exists random,
    0 <= random < 2 ^ 32 /\
    choose_offset spec_size random
      (max_size_of spec_size (Sample.blank 64 64) Low) 16 Low = 0.
Proof.
  apply (offset_zero_reachable spec_size
           (max_size_of spec_size (Sample.blank 64 64) Low) 16 Low).
  - vm_compute; split; [reflexivity | discriminate].
  - vm_compute; split; [discriminate | reflexivity].
Defined.

(** ** The padding encode embeds and decode removes *)

(** C3: in every run of encode that gets past its checks on a file of [n]
    bytes, the payload handed to the image has a length that is a multiple of
    16 and at least [n + 1]; it is the file's bytes followed by a pad of 1 to
    16 bytes, each holding the pad length, and nothing else is embedded at an
    offset. Whenever decode reads that payload back under a header that
    passes its checks and declares that size, it takes the last byte as the
    pad length, drops that many bytes, and writes exactly the [n] original
    bytes. *)
Theorem padding_round_trip (encoded_size : Z -> EncodingLevel -> Z)
    (world : World) (image : Image.t) (input output : string)
    (payload_level : EncodingLevel) (raw : list Z) (random : Z) :
  let n := len raw in
  let padded_size := padded_size_of (Width.usize n) in
  let max_size := max_size_of encoded_size image payload_level in
  let chosen := choose_offset encoded_size random max_size padded_size
                  payload_level in
  let pad := padded_size - n in
  let padded := raw ++ repeat pad (Z.to_nat pad) in
  let embedding :=
    fst (encode encoded_size world image input output payload_level) in
  read_file world input = Some raw ->
  n < 2 ^ 63 ->
  padded_size <= max_size ->
  random_get world = Some random ->
  offset_modulus encoded_size max_size padded_size payload_level <> 0 ->
  len (string_bytes (filename input)) <= sizeof_name ->
  (padded_size mod 16 = 0 /\ n + 1 <= padded_size /\ 1 <= pad <= 16 /\
   len padded = padded_size) /\
  In (ImageEncode padded padded_size payload_level (Some chosen)) embedding /\
  (forall data size' level' offset',
      In (ImageEncode data size' level' (Some offset')) embedding ->
      data = padded /\ size' = padded_size) /\
  (forall (world' : World) (image' : Image.t) (output' text : string)
          (lvl : EncodingLevel),
      let header :=
        header_of_bytes (Image.decode image' sizeof_Header Low None) in
      let out := if String.eqb output' EmptyString
                 then bytes_string (header_name header) else output' in
      check_header header = None ->
      level_to_str (level header) = Some text ->
      level_of_code (level header) = Some lvl ->
      size header = Width.u32 padded_size ->
      Image.decode image' (size header) lvl (Some (offset header)) = padded ->
      open_out world' out = true ->
      decode world' image' output' =
        ([ Cout (InfoImageSize (Image.w image') (Image.h image'));
           ImageDecode sizeof_Header Low None;
           Cout (InfoDetected (header_name header));
           Cout (InfoEncodingLevel (Some text));
           ImageDecode padded_size lvl (Some (offset header));
           FileWrite out raw;
           Cout (InfoWrote out) ],
         Returned 0)).
Proof.
  cbv zeta; intros Hread Hn Hfits Hrandom Hmod Hname.
  pose proof (len_nonneg raw) as H0.
  rewrite (encode_run encoded_size world image input output payload_level raw
             random Hread Hfits Hrandom Hmod Hname).
  rewrite (WidthFacts.usize_small (len raw)) in * by lia.
  destruct (padded_size_of_spec (len raw)) as [Hmod16 Hrange]; [lia|].
  set (max_size := max_size_of encoded_size image payload_level) in *.
  set (p := padded_size_of (len raw)) in *.
  assert (Hmax : 0 <= max_size < 2 ^ 32) by apply WidthFacts.u32_range.
  assert (Hdata : padded_data_of raw p
                  = raw ++ repeat (p - len raw) (Z.to_nat (p - len raw)))
    by (apply padded_data_of_eq; lia).
  destruct (trim_of_padded raw) as [Hlast Hwritten]; [lia | fold p; lia|].
  fold p in Hlast, Hwritten.
  rewrite Hdata in *.
  split; [|split; [|split]].
  - repeat split; try lia; try assumption.
    rewrite len_app, len_repeat; lia.
  - cbn; tauto.
  - intros data size' level' offset' Hin; cbn in Hin.
    repeat (destruct Hin as [Hin | Hin];
            [first [discriminate Hin | inversion Hin; subst; now split]|]).
    contradiction.
  - intros world' image' output' text lvl Hcheck Htext Hlvl Hsize Hpayload Hopen.
    rewrite (WidthFacts.u32_small p) in Hsize by lia.
    unfold decode; cbv zeta.
    rewrite Hcheck, Htext, Hlvl, Hsize.
    rewrite Hsize in Hpayload; rewrite Hpayload, Hlast, Hopen, Hwritten.
    reflexivity.
Qed.

Lemma padding_round_trip_witness :
  In (ImageEncode Sample.padded_abc 16 Low (Some 485))
     (fst (encode spec_size
             (Sample.world [97; 98; 99] (Some 5) true (Sample.blank 64 64))
             (Sample.blank 64 64) "f.bin" "out.png" Low)) /\
  decode (Sample.world [] None true (Sample.blank 1 1))
         (Sample.carrying Sample.good_header Sample.padded_abc) "out.bin" =
    ([ Cout (InfoImageSize 64 64);
       ImageDecode sizeof_Header Low None;
       Cout (InfoDetected [102; 46; 98; 105; 110]);
       Cout (InfoEncodingLevel (Some "Low (Default)"%string));
       ImageDecode 16 Low (Some 485);
       FileWrite "out.bin" [97; 98; 99];
       Cout (InfoWrote "out.bin") ],
     Returned 0).
Proof.
  destruct (padding_round_trip spec_size
              (Sample.world [97; 98; 99] (Some 5) true (Sample.blank 64 64))
              (Sample.blank 64 64) "f.bin" "out.png" Low [97; 98; 99] 5)
    as (_ & Hembedded & _ & Htrimmed);
    try (vm_compute; first [reflexivity | discriminate]).
  split; [exact Hembedded|].
  apply (Htrimmed (Sample.world [] None true (Sample.blank 1 1))
           (Sample.carrying Sample.good_header Sample.padded_abc)
           "out.bin"%string "Low (Default)"%string Low);
    vm_compute; reflexivity.
Defined.

(** ** decode: the fields it does not check *)

(** X10: decode's checks do not cover the level byte. A header with the right
    signature, version and zeroed reserved block is accepted whatever its
    level byte: none of the three header errors is printed and the embedded
    name is announced (line 136). For a level byte other than 0, 1 or 2 the
    index into the three-entry [level_to_str] of line 137 is then out of
    bounds, and the byte names no encoding level. *)
Theorem decode_accepts_any_level (world : World) (image : Image.t)
    (output : string) :
  let header := header_of_bytes (Image.decode image sizeof_Header Low None) in
  well_formed header ->
  ~ (0 <= level header <= 2) ->
  level_to_str (level header) = None /\
  level_of_code (level header) = None /\
  In (Cout (InfoDetected (header_name header)))
     (fst (decode world image output)) /\
  (forall err,
      In err [ErrSignature; ErrVersion (version header); ErrReserved] ->
      ~ In (Cerr err) (fst (decode world image output))).
Proof.
  cbv zeta.
  set (header := header_of_bytes _).
  intros Hwf Hlevel.
  assert (Hcheck : check_header header = None).
  { destruct (check_header_spec header) as [[Hok _] | [Hbad _]];
      [apply slice_length | exact Hok | contradiction]. }
  assert (Hstr : level_to_str (level header) = None).
  { unfold level_to_str.
    repeat match goal with
           | |- context [?a =? ?b] => destruct (Z.eqb_spec a b); [lia|]
           end.
    reflexivity. }
  assert (Hcode : level_of_code (level header) = None).
  { unfold level_of_code.
    repeat match goal with
           | |- context [?a =? ?b] => destruct (Z.eqb_spec a b); [lia|]
           end.
    reflexivity. }
  split; [exact Hstr|]; split; [exact Hcode|].
  unfold decode; cbv zeta; fold header; rewrite Hcheck, Hstr.
  cbn [fst app]; split; [cbn; tauto|].
  intros err _ Hin; no_such_event Hin.
Qed.

Lemma decode_accepts_any_level_witness :
  In (Cout (InfoDetected [102; 46; 98; 105; 110]))
     (fst (decode (Sample.world [] None true (Sample.blank 1 1))
             (Sample.carrying
                (firstn 6 Sample.good_header ++ 7 :: skipn 7 Sample.good_header)
                Sample.padded_abc) "out.bin")).
Proof.
  apply (decode_accepts_any_level
           (Sample.world [] None true (Sample.blank 1 1))
           (Sample.carrying
              (firstn 6 Sample.good_header ++ 7 :: skipn 7 Sample.good_header)
              Sample.padded_abc) "out.bin").
  - repeat split; vm_compute; repeat constructor.
  - vm_compute; intros [_ H]; apply H; reflexivity.
Defined.

(** X11: decode does not check the pad length against the payload. When the
    payload's last byte is larger than the declared size, the subtraction of
    line 142 wraps around in 32 bits: the byte count passed to [file.write]
    is 2^32 less the excess, more than the buffer holds. decode has by then
    extracted the payload and, the output file being open, prints no error. *)
Theorem decode_pad_wraps (world : World) (image : Image.t) (output : string)
    (text : string) (lvl : EncodingLevel) (p : Z) :
  let header := header_of_bytes (Image.decode image sizeof_Header Low None) in
  let data := Image.decode image (size header) lvl (Some (offset header)) in
  let out := if String.eqb output EmptyString
             then bytes_string (header_name header) else output in
  check_header header = None ->
  level_to_str (level header) = Some text ->
  level_of_code (level header) = Some lvl ->
  0 <= size header < 2 ^ 32 ->
  len data = size header ->
  last_byte data (size header) = Some p ->
  size header < p < 2 ^ 32 ->
  open_out world out = true ->
  trimmed_size (size header) p = 2 ^ 32 - (p - size header) /\
  len data < trimmed_size (size header) p /\
  written_bytes data (trimmed_size (size header) p) = None /\
  In (ImageDecode (size header) lvl (Some (offset header)))
     (fst (decode world image output)) /\
  ~ (exists err, In (Cerr err) (fst (decode world image output))).
Proof.
  cbv zeta.
  set (header := header_of_bytes _).
  set (data := Image.decode image (size header) lvl (Some (offset header))).
  intros Hcheck Htext Hlvl Hsize Hlen Hlast Hp Hopen.
  assert (Hwrap : trimmed_size (size header) p = 2 ^ 32 - (p - size header)).
  { unfold trimmed_size, Width.u32.
    symmetry; apply Z.mod_unique_pos with (q := -1); lia. }
  assert (Hover : written_bytes data (trimmed_size (size header) p) = None).
  { unfold written_bytes; rewrite Hwrap.
    destruct (Z.leb_spec (2 ^ 32 - (p - size header)) (len data)); [lia|].
    reflexivity. }
  split; [exact Hwrap|]; split; [rewrite Hwrap; lia|]; split; [exact Hover|].
  unfold decode; cbv zeta; fold header.
  rewrite Hcheck, Htext, Hlvl; fold data.
  rewrite Hlast, Hopen, Hover; cbn [negb fst app].
  split; [cbn; tauto|].
  intros (err & Hin); no_such_event Hin.
Qed.

Lemma decode_pad_wraps_witness :
  trimmed_size 16 200 = 4294967112 /\
  written_bytes (repeat 200 16) (trimmed_size 16 200) = None.
Proof.
  destruct (decode_pad_wraps
              (Sample.world [] None true (Sample.blank 1 1))
              (Sample.carrying Sample.good_header (repeat 200 16)) "out.bin"
              "Low (Default)" Low 200) as (Hwrap & _ & Hover & _);
    [ vm_compute;
      first [reflexivity | split; first [reflexivity | discriminate]] ..
    | split; [exact Hwrap | exact Hover] ].
Defined.
